(** * Streaming-Recommender-System: the two recommendation notebooks

    A shallow embedding of the MovieLens notebook (matrix factorisation by
    truncated SVD, [recommend_movies]) and of the Netflix notebook
    ([net_recom.ipynb]: data slicing, pivoting and the top-10 listing of
    estimated scores), together with the statements of the recommender
    specification that can be settled on them.

    Conventions.
    - A DataFrame is the list of its rows, in row order; a column is a field
      of the row record.  A missing value (NaN) is [None].
    - Double-precision values (predicted scores, means) are modelled by exact
      rationals [Q]; the integer columns (ids, ratings, timestamps) are [Z].
      An operation on [Q] stands for the operation on doubles, which rounds
      its result: the statements below say which operation is applied to
      which operands, and none relies on an identity that holds of exact
      quotients or differences only.
    - A Python exception is the result [None] of an [option]-valued
      function; the comment next to it names the exception.
    - Calls into numerical libraries whose code is not part of the
      repository ([scipy.sparse.linalg.svds], [surprise.SVD]) are section
      variables. *)

From Stdlib Require Import List ZArith QArith Qround Lia Lqa Permutation Sorted Bool Ascii String.
From stdpp Require Import gmap sorting.
Import ListNotations.
Open Scope Z_scope.

(** ** Slicing and sorting of frames *)

Section Frames.
Context {A : Type}.

(** [l[:n]] on rows, as [DataFrame.iloc] and [head] do it: a negative
    bound counts from the end. *)
Definition iloc_upto (n : Z) (l : list A) : list A :=
  if 0 <=? n then firstn (Z.to_nat n) l
  else firstn (Z.to_nat (Z.of_nat (List.length l) + n)) l.

(** [Series.isin]: membership of a key in a list of keys. *)
Definition isin (k : Z) (ks : list Z) : bool := existsb (Z.eqb k) ks.

Variable key : A -> option Q.

Definition notnull (r : A) : bool :=
  match key r with Some _ => true | None => false end.

Definition isnull (r : A) : bool := negb (notnull r).

Definition key_leb (a b : A) : bool :=
  match key a, key b with
  | Some x, Some y => Qle_bool x y
  | _, _ => true
  end.

(** The ascending sort of the keys that are not NaN.  numpy's [quicksort]
    (the default [kind] of [sort_values]) is an insertion sort on short
    inputs, which keeps rows with equal keys in their order; on long
    inputs the library fixes no order among equal keys.  The model is the
    insertion sort; the general statements below use only that its result
    is a sorted rearrangement. *)
Fixpoint insert_sorted (x : A) (l : list A) : list A :=
  match l with
  | [] => [x]
  | y :: l' => if key_leb x y then x :: l else y :: insert_sorted x l'
  end.

Definition argsort (l : list A) : list A := fold_right insert_sorted [] l.

(** [DataFrame.sort_values(col, ascending=False)]: pandas' [nargsort]
    reverses the non-NaN rows, sorts them ascending, reverses the result
    and appends the NaN rows ([na_position='last']). *)
Definition sort_values_desc (l : list A) : list A :=
  rev (argsort (rev (List.filter notnull l))) ++ List.filter isnull l.

(** [Series.sort_values(ascending=False)]: the ascending order of the
    non-NaN entries reversed, NaN entries last. *)
Definition series_sort_values_desc (l : list A) : list A :=
  rev (argsort (List.filter notnull l)) ++ List.filter isnull l.

(** Descending on the key, NaN keys after all others. *)
Definition key_ge (a b : A) : Prop :=
  match key a, key b with
  | Some x, Some y => (y <= x)%Q
  | Some _, None => True
  | None, None => True
  | None, Some _ => False
  end.

Definition key_le (a b : A) : Prop := key_ge b a.
End Frames.

(** [left.merge(right, how='left', on=key)]: every left row once per
    matching right row, in left order; a left row without a match is kept
    with a missing right side. *)
Definition merge_left {L R : Type} (lkey : L -> Z) (rkey : R -> Z)
    (left : list L) (right : list R) : list (L * option R) :=
  flat_map (fun l =>
    match List.filter (fun r => rkey r =? lkey l) right with
    | [] => [(l, None)]
    | ms => map (fun r => (l, Some r)) ms
    end) left.

(** The sorted distinct values of a key column: the index of a [groupby]
    and the row and column labels of a pivot. *)
Fixpoint insert_unique (x : Z) (l : list Z) : list Z :=
  match l with
  | [] => [x]
  | y :: l' =>
      if x <? y then x :: l
      else if x =? y then l
      else y :: insert_unique x l'
  end.

Definition sorted_unique (l : list Z) : list Z := fold_right insert_unique [] l.

(** A pivoted frame: row labels, column labels, and the cells row by
    row. *)
Record Pivot (V : Type) :=
  { index : list Z; pcolumns : list Z; cells : list (list V) }.
Arguments index {V}.
Arguments pcolumns {V}.
Arguments cells {V}.

(** ** Dense matrices, as numpy has them *)

Definition matrix : Type := list (list Q).

Definition Qsum (l : list Q) : Q := fold_right Qplus 0%Q l.

Definition Zsum (l : list Z) : Z := fold_right Z.add 0 l.

Definition dot (a b : list Q) : Q :=
  Qsum (map (fun p => (fst p * snd p)%Q) (combine a b)).

Definition ncols (M : matrix) : nat :=
  match M with [] => 0%nat | r :: _ => List.length r end.

Definition column (j : nat) (M : matrix) : list Q :=
  map (fun r => nth j r 0%Q) M.

(** [np.dot] of two matrices of matching shapes. *)
Definition np_dot (M N : matrix) : matrix :=
  map (fun r => map (fun j => dot r (column j N)) (seq 0 (ncols N))) M.

(** [np.diag] of a vector. *)
Definition np_diag (s : list Q) : matrix :=
  map (fun i => map (fun j => if Nat.eqb i j then nth i s 0%Q else 0%Q)
                 (seq 0 (List.length s)))
      (seq 0 (List.length s)).

(** [np.mean(R, axis = 1)]: one mean per row, over every column: the sum
    of the row divided by its length.  The quotient is exact here; the
    notebook holds the double nearest to it. *)
Definition np_mean_axis1 (M : matrix) : list Q :=
  map (fun r => (Qsum r / inject_Z (Z.of_nat (List.length r)))%Q) M.

(** [M + v.reshape(-1, 1)] and [M - v.reshape(-1, 1)]: the i-th entry of
    [v] is broadcast over the i-th row of [M]. *)
Definition add_column_vector (M : matrix) (v : list Q) : matrix :=
  map (fun p => map (fun x => (x + snd p)%Q) (fst p)) (combine M v).

Definition sub_column_vector (M : matrix) (v : list Q) : matrix :=
  map (fun p => map (fun x => (x - snd p)%Q) (fst p)) (combine M v).

(** ** The MovieLens notebook *)

Module ratings.
(** A row of [ratings_df] (one line [UserID::MovieID::Rating::Timestamp]
    of ratings.dat). *)
Record row := mk { UserID : Z; MovieID : Z; Rating : Z; Timestamp : Z }.
End ratings.

Module movies.
(** A row of [movies_df] (one line [MovieID::Title::Genres] of
    movies.dat). *)
Record row := mk { MovieID : Z; Title : string; Genres : string }.
End movies.

Module MovieLens.

(** [preds_df]: the predicted ratings, one row per user (default integer
    index 0, 1, ...), one column per MovieID. *)
Record PredFrame := { columns : list Z; values : list (list Q) }.

(** [df.iloc[i]] on rows: the row and its index label; [None] is
    [IndexError]. *)
Definition iloc (df : PredFrame) (i : Z) : option (Z * list Q) :=
  let n := Z.of_nat (List.length (values df)) in
  if (0 <=? i) && (i <? n) then
    option_map (pair i) (nth_error (values df) (Z.to_nat i))
  else if (- n <=? i) && (i <? 0) then
    option_map (pair (n + i)) (nth_error (values df) (Z.to_nat (n + i)))
  else None.

(** A row of [user_full]: the user's rating joined with the movie's title
    and genres. *)
Definition user_full_row : Type := ratings.row * option movies.row.

Definition rating_key (x : user_full_row) : option Q :=
  Some (inject_Z (ratings.Rating (fst x))).

(** The prediction joined to a candidate movie, NaN when [preds_df] has
    no column for it. *)
Definition prediction_key (x : movies.row * option (Z * Q)) : option Q :=
  option_map snd (snd x).

Definition user_data (userID : Z) (original_ratings_df : list ratings.row)
    : list ratings.row :=
  List.filter (fun r => ratings.UserID r =? userID) original_ratings_df.

Definition user_full (userID : Z) (movies_df : list movies.row)
    (original_ratings_df : list ratings.row) : list user_full_row :=
  sort_values_desc rating_key
    (merge_left ratings.MovieID movies.MovieID
       (user_data userID original_ratings_df) movies_df).

(** [movies_df[~movies_df['MovieID'].isin(user_full['MovieID'])]] *)
Definition not_rated (userID : Z) (movies_df : list movies.row)
    (original_ratings_df : list ratings.row) : list movies.row :=
  List.filter
    (fun m => negb (isin (movies.MovieID m)
       (map (fun x => ratings.MovieID (fst x))
            (user_full userID movies_df original_ratings_df))))
    movies_df.

(** [preds_df.iloc[user_row_number].sort_values(ascending=False)], with
    the MovieID of every prediction. *)
Definition sorted_user_predictions (row : list (Z * Q)) : list (Z * Q) :=
  series_sort_values_desc (fun p => Some (snd p)) row.

(** The candidates joined with their predictions. *)
Definition scored (row : list (Z * Q)) (userID : Z)
    (movies_df : list movies.row) (original_ratings_df : list ratings.row)
    : list (movies.row * option (Z * Q)) :=
  merge_left movies.MovieID fst
    (not_rated userID movies_df original_ratings_df)
    (sorted_user_predictions row).

(** The candidates sorted on their predictions, before the final [iloc]. *)
Definition ranked (row : list (Z * Q)) (userID : Z)
    (movies_df : list movies.row) (original_ratings_df : list ratings.row)
    : list (movies.row * option (Z * Q)) :=
  sort_values_desc prediction_key
    (scored row userID movies_df original_ratings_df).

(** [recommend_movies].  The body reads the module-level [preds_df], not
    its parameter [predictions_df]; [preds_df] is therefore the first
    argument here.  The row is taken at position [userID - 1]; its Series
    is named by the row's index label, and the [rename] to 'Predictions'
    only applies when that label is [user_row_number], otherwise the
    [sort_values('Predictions')] raises [KeyError]. *)
Definition recommend_movies (preds_df : PredFrame)
    (predictions_df : PredFrame) (userID : Z) (movies_df : list movies.row)
    (original_ratings_df : list ratings.row) (num_recommendations : Z)
    : option (list user_full_row * list movies.row) :=
  let user_row_number := userID - 1 in
  match iloc preds_df user_row_number with
  | None => None
  | Some (label, row) =>
      if label =? user_row_number then
        Some (user_full userID movies_df original_ratings_df,
              map fst (iloc_upto num_recommendations
                (ranked (combine (columns preds_df) row) userID
                   movies_df original_ratings_df)))
      else None
  end.

(** *** From the ratings table to [preds_df] *)

Definition same_entry (a b : ratings.row) : bool :=
  (ratings.UserID a =? ratings.UserID b)
  && (ratings.MovieID a =? ratings.MovieID b).

Fixpoint has_duplicate_entries (df : list ratings.row) : bool :=
  match df with
  | [] => false
  | r :: df' => existsb (same_entry r) df' || has_duplicate_entries df'
  end.

(** The rating stored for a (user, movie) pair, NaN when there is none. *)
Definition entry (df : list ratings.row) (u m : Z) : option Z :=
  option_map ratings.Rating
    (find (fun r => (ratings.UserID r =? u) && (ratings.MovieID r =? m)) df).

(** The same with 0 for a missing rating. *)
Definition entry0 (df : list ratings.row) (u m : Z) : Z :=
  match entry df u m with Some r => r | None => 0 end.

(** The (UserID, MovieID) pair of a row. *)
Definition entry_key (r : ratings.row) : Z * Z :=
  (ratings.UserID r, ratings.MovieID r).

(** [ratings_df = pd.DataFrame(ratings_list, columns = ['UserID',
    'MovieID', 'Rating', 'Timestamp'], dtype = int)]: one row per line of
    ratings.dat, the four fields taken as they are. *)
Definition ratings_df (ratings_list : list (Z * Z * Z * Z)) : list ratings.row :=
  map (fun '(u, m, r, t) => ratings.mk u m r t) ratings_list.

(** [ratings_df.pivot(index='UserID', columns='MovieID', values='Rating')];
    [None] is the ValueError pandas raises when a (UserID, MovieID) pair
    occurs twice ("Index contains duplicate entries, cannot reshape"). *)
Definition pivot (ratings_df : list ratings.row) : option (Pivot (option Z)) :=
  if has_duplicate_entries ratings_df then None
  else
    let idx := sorted_unique (map ratings.UserID ratings_df) in
    let cols := sorted_unique (map ratings.MovieID ratings_df) in
    Some {| index := idx; pcolumns := cols;
            cells := map (fun u => map (entry ratings_df u) cols) idx |}.

(** [.fillna(0)]; the pivoted ratings are floats. *)
Definition fillna0 (o : option Z) : Q :=
  match o with Some r => inject_Z r | None => 0%Q end.

Definition R_df (ratings_df : list ratings.row) : option (Pivot Q) :=
  option_map (fun p => {| index := index p; pcolumns := pcolumns p;
                          cells := map (map fillna0) (cells p) |})
             (pivot ratings_df).

(** [R = R_df.as_matrix()] *)
Definition R (p : Pivot Q) : matrix := cells p.

Definition user_ratings_mean (p : Pivot Q) : list Q := np_mean_axis1 (R p).

Definition R_demeaned (p : Pivot Q) : matrix :=
  sub_column_vector (R p) (user_ratings_mean p).

Section Factorization.
(** [scipy.sparse.linalg.svds(M, k)]: the truncated decomposition
    [(U, sigma, Vt)]; [None] is the ValueError of the solver (it rejects a
    [k] that is not below both dimensions of [M]).  The solver draws its
    start vector from numpy's global generator; the notebook sets no seed,
    and the state of the generator at the call is the first argument. *)
Variable seed : Type.
Variable svds : seed -> matrix -> nat -> option (matrix * list Q * matrix).

Definition all_user_predicted_ratings (s : seed) (p : Pivot Q) : option matrix :=
  match svds s (R_demeaned p) 100%nat with
  | Some (U, sigma, Vt) =>
      let sigma := np_diag sigma in
      Some (add_column_vector (np_dot (np_dot U sigma) Vt) (user_ratings_mean p))
  | None => None
  end.

(** [preds_df = pd.DataFrame(all_user_predicted_ratings,
    columns = R_df.columns)] *)
Definition preds_df (s : seed) (ratings_df : list ratings.row)
    : option PredFrame :=
  match R_df ratings_df with
  | Some p =>
      option_map (fun v => {| columns := pcolumns p; values := v |})
                 (all_user_predicted_ratings s p)
  | None => None
  end.
End Factorization.

End MovieLens.

(** ** The Netflix notebook *)

Module titles.
(** A row of [df_title] (movie_titles.csv); the year is missing for some
    movies. *)
Record row := mk { Movie_Id : Z; Year : option Z; Name : string }.
End titles.

Module Netflix.

(** A row of [df] once the cleaning step has removed the movie header lines
    and added the [Movie_Id] column; [Rating] has been cast to float. *)
Record row := mk { Cust_Id : Z; Rating : Q; Movie_Id : Z }.

(** *** Data slicing *)

(** A row of [df.groupby(by)['Rating'].agg(['count', 'mean'])]. *)
Record summary := { group : Z; count : Z; mean : Q }.

Definition groupby_agg (by_ : row -> Z) (df : list row) : list summary :=
  map (fun k =>
         let g := List.filter (fun r => by_ r =? k) df in
         {| group := k;
            count := Z.of_nat (List.length g);
            mean := (Qsum (map Rating g) / inject_Z (Z.of_nat (List.length g)))%Q |})
      (sorted_unique (map by_ df)).

Definition df_movie_summary (df : list row) : list summary :=
  groupby_agg Movie_Id df.

Definition df_cust_summary (df : list row) : list summary :=
  groupby_agg Cust_Id df.

(** [Series.quantile(q)] with linear interpolation between the two order
    statistics around position [q * (n - 1)]; NaN on an empty series. *)
Definition quantile (q : Q) (xs : list Z) : option Q :=
  match xs with
  | [] => None
  | _ =>
      let sorted := argsort (fun c => Some (inject_Z c)) xs in
      let n := Z.of_nat (List.length xs) in
      let h := (q * inject_Z (n - 1))%Q in
      let below := Qfloor h in
      let above := Z.min (below + 1) (n - 1) in
      let w := (h - inject_Z below)%Q in
      let x1 := inject_Z (nth (Z.to_nat below) sorted 0) in
      let x2 := inject_Z (nth (Z.to_nat above) sorted 0) in
      Some (x1 * (1 - w) + x2 * w)%Q
  end.

(** [round(x, 0)]: to the nearest integer, a half to the even neighbour. *)
Definition round0 (x : Q) : Z :=
  let f := Qfloor x in
  match ((x - inject_Z f) ?= 1 # 2)%Q with
  | Lt => f
  | Gt => f + 1
  | Eq => if Z.even f then f else f + 1
  end.

(** [round(summary['count'].quantile(0.8), 0)] *)
Definition benchmark (s : list summary) : option Z :=
  option_map round0 (quantile (8 # 10) (map count s)).

Definition movie_benchmark (df : list row) : option Z :=
  benchmark (df_movie_summary df).

Definition cust_benchmark (df : list row) : option Z :=
  benchmark (df_cust_summary df).

(** [count < benchmark]; a comparison with NaN is false. *)
Definition below_benchmark (b : option Z) (s : summary) : bool :=
  match b with Some b => count s <? b | None => false end.

(** [summary[summary['count'] < benchmark].index] *)
Definition drop_list (b : option Z) (s : list summary) : list Z :=
  map group (List.filter (below_benchmark b) s).

Definition drop_movie_list (df : list row) : list Z :=
  drop_list (movie_benchmark df) (df_movie_summary df).

Definition drop_cust_list (df : list row) : list Z :=
  drop_list (cust_benchmark df) (df_cust_summary df).

(** The number of reviews a movie or a customer has in a table. *)
Definition reviews (by_ : row -> Z) (df : list row) (k : Z) : Z :=
  Z.of_nat (List.length (List.filter (fun r => by_ r =? k) df)).

(** The trim: both drop lists come from the table before the trim. *)
Definition trim (df : list row) : list row :=
  let drop_movie_list := drop_movie_list df in
  let drop_cust_list := drop_cust_list df in
  let df := List.filter (fun r => negb (isin (Movie_Id r) drop_movie_list)) df in
  List.filter (fun r => negb (isin (Cust_Id r) drop_cust_list)) df.

(** *** The customer by movie matrix *)

Definition ratings_of (df : list row) (u m : Z) : list Q :=
  map Rating (List.filter (fun r => (Cust_Id r =? u) && (Movie_Id r =? m)) df).

(** The default [aggfunc] of [pivot_table]. *)
Definition np_mean (l : list Q) : option Q :=
  match l with
  | [] => None
  | _ => Some (Qsum l / inject_Z (Z.of_nat (List.length l)))%Q
  end.

(** [df_p = pd.pivot_table(df, values='Rating', index='Cust_Id',
    columns='Movie_Id')] *)
Definition pivot_table (df : list row) : Pivot (option Q) :=
  let idx := sorted_unique (map Cust_Id df) in
  let cols := sorted_unique (map Movie_Id df) in
  {| index := idx; pcolumns := cols;
     cells := map (fun u => map (fun m => np_mean (ratings_of df u m)) cols) idx |}.

(** The cell of a pivot at a (row label, column label) pair. *)
Fixpoint position (k : Z) (ks : list Z) : option nat :=
  match ks with
  | [] => None
  | k' :: ks' => if k =? k' then Some 0%nat else option_map S (position k ks')
  end.

Definition cell {V : Type} (p : Pivot (option V)) (u m : Z) : option V :=
  match position u (index p), position m (pcolumns p) with
  | Some i, Some j =>
      match nth_error (cells p) i with
      | Some r => match nth_error r j with Some v => v | None => None end
      | None => None
      end
  | _, _ => None
  end.

(** *** The listing of estimated scores for customer 683421 *)

(** A row of the listing: [Movie_Id] has been dropped, the row keeps the
    index label it got from [reset_index], its position in [df_title]. *)
Record estimate :=
  { label : nat; Year : option Z; Name : string; Estimate_Score : Q }.

Section Estimates.
(** [svd.predict(uid, iid).est] of the trained [surprise.SVD]. *)
Variable est : Z -> Z -> Q.

(** The retained titles with their estimated scores, in the order of
    [df_title]: [reset_index], the filter on [drop_movie_list], the
    [apply] of the prediction, and the drop of the [Movie_Id] column. *)
Definition estimates (df_title : list titles.row)
    (drop_movie_list : list Z) : list estimate :=
  let t := combine (seq 0 (List.length df_title)) df_title in
  let t := List.filter
             (fun x => negb (isin (titles.Movie_Id (snd x)) drop_movie_list)) t in
  let t := map (fun x => (x, est 683421 (titles.Movie_Id (snd x)))) t in
  map (fun y => {| label := fst (fst y);
                   Year := titles.Year (snd (fst y));
                   Name := titles.Name (snd (fst y));
                   Estimate_Score := snd y |}) t.

Definition score_key (e : estimate) : option Q := Some (Estimate_Score e).

(** [user_683421.sort_values('Estimate_Score', ascending=False).head(10)] *)
Definition user_683421 (df_title : list titles.row)
    (drop_movie_list : list Z) : list estimate :=
  iloc_upto 10 (sort_values_desc score_key (estimates df_title drop_movie_list)).
End Estimates.

End Netflix.

(** ** The factorization core of the specification

    The notebooks train and query the factorization through
    [surprise.SVD] ([svd.train], [svd.predict]); the training loop and the
    prediction rule are not part of the repository.  This module follows
    sections 3, 4.2, 4.3 and 7 of the specification. *)

Module Core.

(** Modelled from the spec: the errors of section 7. *)
Inductive Error :=
  | InvalidRatingError
  | EmptyDatasetError
  | DivergenceError
  | UnknownEntityError.

(** Modelled from the spec: an entry of UserFactors or ItemFactors, "a
    fixed-length real vector (latent dimension k) plus a scalar bias". *)
Record Factors := { vector : list Q; bias : Q }.

(** Modelled from the spec: the TrainedModel, which owns UserFactors,
    ItemFactors, GlobalBias and the hyperparameters, "mapping from id to
    vector/bias". *)
Record TrainedModel :=
  { GlobalBias : Q;
    UserFactors : gmap Z Factors;
    ItemFactors : gmap Z Factors;
    learningRate : Q;
    regularization : Q }.

(** Modelled from the spec: "GlobalBias + whichever bias terms exist". *)
Definition add_bias (x : Q) (f : option Factors) : Q :=
  match f with Some f => (x + bias f)%Q | None => x end.

(** Modelled from the spec: the model of section 4.2, "predicted rating for
    (u,i) = GlobalBias + userBias(u) + itemBias(i) + dot(UserFactors[u],
    ItemFactors[i])". *)
Definition predicted (m : TrainedModel) (pu qi : Factors) : Q :=
  (GlobalBias m + bias pu + bias qi + dot (vector pu) (vector qi))%Q.

(** Modelled from the spec: [predict] of section 4.3 with the cold-start
    policy of sections 4.3 and 7 (the body of [svd.predict] is missing):
    a user_id or item_id never seen during training has no entry in the
    mapping; the default mode falls back to the biases that exist, the
    strict mode raises UnknownEntityError. *)
Definition predict (strict : bool) (m : TrainedModel) (user_id item_id : Z)
    : Error + Q :=
  match UserFactors m !! user_id, ItemFactors m !! item_id with
  | Some pu, Some qi => inr (predicted m pu qi)
  | ou, oi =>
      if strict then inl UnknownEntityError
      else inr (add_bias (add_bias (GlobalBias m) ou) oi)
  end.

(** Modelled from the spec: "x += lr * (error * other - reg * x)" on
    vectors, coordinate by coordinate. *)
Definition factor_update (lr error reg : Q) (x other : list Q) : list Q :=
  map (fun p => (fst p + lr * (error * snd p - reg * fst p))%Q) (combine x other).

(** Modelled from the spec: "x += lr * (error - reg * x)" on a bias. *)
Definition bias_update (lr error reg b : Q) : Q :=
  (b + lr * (error - reg * b))%Q.

(** Modelled from the spec: the processing of one rating (u, i, r) in step 2
    of the training algorithm of section 4.2 (the body of [svd.train] is
    missing).  The error is computed first; both factor updates read the
    vectors as they were before the step.  Step 1 has created the entries
    of every user and item of the store, so the last case is not reached
    during training. *)
Definition sgd_step (m : TrainedModel) (u i : Z) (r : Q) : TrainedModel :=
  match UserFactors m !! u, ItemFactors m !! i with
  | Some pu, Some qi =>
      let lr := learningRate m in
      let reg := regularization m in
      let error := (r - predicted m pu qi)%Q in
      let pu' := {| vector := factor_update lr error reg (vector pu) (vector qi);
                    bias := bias_update lr error reg (bias pu) |} in
      let qi' := {| vector := factor_update lr error reg (vector qi) (vector pu);
                    bias := bias_update lr error reg (bias qi) |} in
      {| GlobalBias := GlobalBias m;
         UserFactors := <[u := pu']> (UserFactors m);
         ItemFactors := <[i := qi']> (ItemFactors m);
         learningRate := lr;
         regularization := reg |}
  | _, _ => m
  end.

(** A trained model with one user and one item, for the examples. *)
Definition example_model : TrainedModel :=
  {| GlobalBias := (7 # 2)%Q;
     UserFactors :=
       {[ 1 := {| vector := [1 # 10; 2 # 10]%Q; bias := (1 # 4)%Q |} ]};
     ItemFactors :=
       {[ 10 := {| vector := [3 # 10; -1 # 10]%Q; bias := (-1 # 2)%Q |} ]};
     learningRate := (1 # 100)%Q;
     regularization := (2 # 100)%Q |}.

End Core.

(** ** The recommender of the specification, for comparison

    Section 4.3: the rated set of a user is "all item_ids present in
    RatingStore for that user"; [recommend] "sorts descending by predicted
    score, ties broken by ascending item_id for determinism, returns the
    first topN". *)

Module Spec.

(** The user has a rating for the item. *)
Definition rated_by (user_id : Z) (store : list ratings.row) (item_id : Z) : bool :=
  existsb (fun r => (ratings.UserID r =? user_id) && (ratings.MovieID r =? item_id))
          store.

(** The candidates the user has not rated. *)
Definition unrated (user_id : Z) (candidates : list movies.row)
    (store : list ratings.row) : list movies.row :=
  List.filter (fun m => negb (rated_by user_id store (movies.MovieID m))) candidates.

(** [a] comes no later than [b]: higher score first, equal scores by
    ascending item_id. *)
Definition before (a b : movies.row * Q) : bool :=
  if Qeq_bool (snd a) (snd b)
  then movies.MovieID (fst a) <=? movies.MovieID (fst b)
  else Qle_bool (snd b) (snd a).

Fixpoint insert (x : movies.row * Q) (l : list (movies.row * Q))
    : list (movies.row * Q) :=
  match l with
  | [] => [x]
  | y :: l' => if before x y then x :: l else y :: insert x l'
  end.

(** [recommend] as section 4.3 words it, for a model that predicts
    [predict item_id] for the user. *)
Definition recommend (predict : Z -> Q) (user_id : Z)
    (candidates : list movies.row) (store : list ratings.row) (topN : nat)
    : list movies.row :=
  map fst (firstn topN
    (fold_right insert []
       (map (fun m => (m, predict (movies.MovieID m)))
            (unrated user_id candidates store)))).

(** Section 3: GlobalBias is the "mean of all observed ratings". *)
Definition GlobalBias (store : list ratings.row) : Q :=
  (inject_Z (Zsum (map ratings.Rating store))
   / inject_Z (Z.of_nat (List.length store)))%Q.

(** The observed ratings of one user. *)
Definition ratings_of_user (user_id : Z) (store : list ratings.row) : list Z :=
  map ratings.Rating (List.filter (fun r => ratings.UserID r =? user_id) store).

(** Section 3: a rating is a "real number in a fixed closed interval, e.g.
    [1,5]"; the MovieLens ratings are "from 1 to 5". *)
Definition valid_rating (r : Z) : bool := (1 <=? r) && (r <=? 5).

End Spec.

(** ** Example data *)

Module Examples.
Open Scope string_scope.

(** Two users, three predicted movies; user 1 has equal predictions for
    movies 1 and 2. *)
Definition preds_df : MovieLens.PredFrame :=
  {| MovieLens.columns := [1; 2; 3];
     MovieLens.values := [[3; 3; 1]%Q; [1; 2; 5]%Q] |}.

(** Movie 4 has no column in [preds_df]. *)
Definition movies_df : list movies.row :=
  [movies.mk 2 "Jumanji (1995)" "Adventure";
   movies.mk 1 "Toy Story (1995)" "Animation";
   movies.mk 3 "Grumpier Old Men (1995)" "Comedy";
   movies.mk 4 "Waiting to Exhale (1995)" "Drama"].

Definition ratings_df : list ratings.row :=
  [ratings.mk 1 3 5 978300760; ratings.mk 2 1 4 978302109].

(** The Netflix table: customer 683421 has rated movies 1 and 2. *)
Definition df : list Netflix.row :=
  [Netflix.mk 683421 5 1; Netflix.mk 683421 4 2;
   Netflix.mk 7 3 1; Netflix.mk 7 2 2].

Definition df_title : list titles.row :=
  [titles.mk 1 (Some 2003) "Dinosaur Planet";
   titles.mk 2 (Some 2004) "Isle of Man TT 2004 Review";
   titles.mk 3 None "Character"].

(** An estimate that grows with the movie id. *)
Definition est (uid iid : Z) : Q := inject_Z iid.

(** A stand-in for the solver: it rejects a [k] that is not below both
    dimensions, and otherwise returns a column of ones, the seed as the one
    singular value, and a row of ones. *)
Definition svds (s : nat) (M : matrix) (k : nat)
    : option (matrix * list Q * matrix) :=
  if (Nat.ltb k (List.length M)) && (Nat.ltb k (ncols M)) then
    Some (map (fun _ => [1%Q]) M, [inject_Z (Z.of_nat s)],
          [map (fun _ => 1%Q) (hd [] M)])
  else None.

(** A ratings table with 101 users and 101 movies: user [k] rates movie
    [k] with 5 and movie [k + 1] with 3. *)
Definition many_ratings : list ratings.row :=
  flat_map (fun k => [ratings.mk k k 5 978300760;
                      ratings.mk k (1 + k mod 101) 3 978300761])
           (map Z.of_nat (seq 1 101)).

End Examples.

(** ** The data cleaning of the Netflix notebook

    The raw table has one row per line of the data file: a movie header
    line ("1:") gives a row whose Rating is NaN, a rating line gives the
    customer and the rating.  The rows are labelled 0, 1, ... by
    [df.index = np.arange(0, len(df))].  The type [C] is that of the raw
    [Cust_Id] column, which the cleaning does not read. *)

Module Cleaning.

(** [df_nan['index']]: the labels of the rows whose Rating is NaN, for a
    table whose first row has the label [start]. *)
Fixpoint isnull_index (start : Z) (Rating : list (option Q)) : list Z :=
  match Rating with
  | [] => []
  | None :: l => start :: isnull_index (start + 1) l
  | Some _ :: l => isnull_index (start + 1) l
  end.

(** [np.full((1, n), v)], flattened by the [np.append] that follows;
    [None] is the ValueError of a negative dimension. *)
Definition np_full (n : Z) (v : Z) : option (list Z) :=
  if n <? 0 then None else Some (repeat v (Z.to_nat n)).

(** The [for i, j in zip(...)] loop on the state [(movie_np, movie_id)]. *)
Fixpoint fill_loop (pairs : list (Z * Z)) (movie_np : list Z) (movie_id : Z)
    : option (list Z * Z) :=
  match pairs with
  | [] => Some (movie_np, movie_id)
  | (i, j) :: pairs' =>
      match np_full (i - j - 1) movie_id with
      | Some temp => fill_loop pairs' (movie_np ++ temp) (movie_id + 1)
      | None => None
      end
  end.

(** The last record: [df_nan.iloc[-1, 0]] raises IndexError on an empty
    [df_nan]. *)
Definition last_record (len : Z) (index : list Z) (st : list Z * Z)
    : option (list Z) :=
  match index with
  | [] => None
  | _ => option_map (app (fst st)) (np_full (len - List.last index 0 - 1) (snd st))
  end.

(** [movie_np] at the end of the cell. *)
Definition movie_np (Rating : list (option Q)) : option (list Z) :=
  let index := isnull_index 0 Rating in
  match fill_loop (combine (tl index) (removelast index)) [] 1 with
  | Some st => last_record (Z.of_nat (List.length Rating)) index st
  | None => None
  end.

(** [df[pd.notnull(df['Rating'])]] *)
Definition notnull_rows {C : Type} (df : list (C * option Q)) : list (C * Q) :=
  flat_map (fun r => match snd r with Some x => [(fst r, x)] | None => [] end) df.

(** [df = df[pd.notnull(df['Rating'])]; df['Movie_Id'] = movie_np.astype(int)];
    [None] is the ValueError of a column whose length is not that of the
    table. *)
Definition set_Movie_Id {C : Type} (df : list (C * option Q))
    (movie_np : list Z) : option (list (C * Q * Z)) :=
  let df := notnull_rows df in
  if Nat.eqb (List.length movie_np) (List.length df)
  then Some (combine df movie_np) else None.

(** The two cells together. *)
Definition cleaned {C : Type} (df : list (C * option Q))
    : option (list (C * Q * Z)) :=
  match movie_np (map snd df) with
  | Some np => set_Movie_Id df np
  | None => None
  end.

(** For comparison: the rating rows, each with [movie_id] plus the number
    of header rows above it. *)
Fixpoint numbered {C : Type} (movie_id : Z) (df : list (C * option Q))
    : list (C * Q * Z) :=
  match df with
  | [] => []
  | (c, None) :: df' => numbered (movie_id + 1) df'
  | (c, Some x) :: df' => (c, x, movie_id) :: numbered movie_id df'
  end.

(** The movie ids alone. *)
Fixpoint ids_from (movie_id : Z) (Rating : list (option Q)) : list Z :=
  match Rating with
  | [] => []
  | None :: l => ids_from (movie_id + 1) l
  | Some _ :: l => movie_id :: ids_from movie_id l
  end.

End Cleaning.

(** ** The remaining cells of the Netflix notebook *)

Module Viewing.

(** The raw table of the data-viewing cell: the first column as it is
    read, a movie header ("1:") or a customer id, and the rating, NaN on a
    header row. *)
Definition raw : Type := list (string * option Q).

(** [df.isnull().sum()[1]]: the number of rows without a rating. *)
Definition movie_count (df : raw) : Z :=
  Z.of_nat (List.length
    (List.filter (fun r => match snd r with None => true | Some _ => false end) df)).

(** [Series.nunique()] *)
Definition nunique (l : list string) : Z :=
  Z.of_nat (List.length (nodup string_dec l)).

(** [df['Cust_Id'].nunique() - movie_count] *)
Definition cust_count (df : raw) : Z := nunique (map fst df) - movie_count df.

(** [df['Cust_Id'].count() - movie_count] *)
Definition rating_count (df : raw) : Z :=
  Z.of_nat (List.length df) - movie_count df.

(** The first columns of the header rows and of the rating rows. *)
Definition headers (df : raw) : list string :=
  map fst (List.filter (fun r => match snd r with None => true | Some _ => false end) df).

Definition customers (df : raw) : list string :=
  map fst (List.filter (fun r => match snd r with None => false | Some _ => true end) df).

End Viewing.

Module Similar.

(** [df_683421]: the movies customer 683421 rated 5, each with its name
    from [df_title], NaN when [df_title] has no row for the movie
    ([df[...].set_index('Movie_Id').join(df_title)['Name']]). *)
Definition df_683421 (df : list Netflix.row) (df_title : list titles.row)
    : list (Z * option string) :=
  map (fun x => (Netflix.Movie_Id (fst x), option_map titles.Name (snd x)))
      (merge_left Netflix.Movie_Id titles.Movie_Id
         (List.filter (fun r => (Netflix.Cust_Id r =? 683421)
                                && Qeq_bool (Netflix.Rating r) 5) df)
         df_title).

(** A row of the table [recommend] prints; the index (the movie id) is not
    printed. *)
Record similar :=
  { PearsonR : Q; Name : option string; count : option Z; mean : option Q }.

(** The column of a pivot at a position. *)
Definition column_at {V : Type} (j : nat) (p : Pivot (option V)) : list (option V) :=
  map (fun r => match nth_error r j with Some v => v | None => None end) (cells p).

(** [corr_target.dropna()] *)
Definition dropna (l : list (Z * option Q)) : list (Z * Q) :=
  flat_map (fun x => match snd x with Some c => [(fst x, c)] | None => [] end) l.

(** [corr_target['count'] > min_count]; a comparison with NaN is false. *)
Definition above_min_count (min_count : Z) (r : similar) : bool :=
  match count r with Some c => min_count <? c | None => false end.

Section Pearson.
(** [df_p.corrwith(target)]: the correlation of every column of [df_p]
    with [target], in the order of the columns, NaN where it is not
    defined. *)
Variable corrwith : Pivot (option Q) -> list (option Q) -> list (option Q).

(** The sorted correlations joined with the titles and the summary. *)
Definition corr_target (df_p : Pivot (option Q)) (df_title : list titles.row)
    (df_movie_summary : list Netflix.summary) (target : list (option Q))
    : list similar :=
  let similar_to_target := combine (pcolumns df_p) (corrwith df_p target) in
  let sorted := sort_values_desc (fun x => Some (snd x)) (dropna similar_to_target) in
  let named := merge_left fst titles.Movie_Id sorted df_title in
  let counted := merge_left (fun x => fst (fst x)) Netflix.group named df_movie_summary in
  map (fun y => {| PearsonR := snd (fst (fst y));
                   Name := option_map titles.Name (snd (fst y));
                   count := option_map Netflix.count (snd y);
                   mean := option_map Netflix.mean (snd y) |}) counted.

(** [recommend(movie_title, min_count)]: the table it prints, with the
    module-level [df_p], [df_title] and [df_movie_summary] as arguments.
    [None] is the IndexError of [[0]] when no title matches, and the
    KeyError of [df_p[i]] when the movie is not a column of [df_p]. *)
Definition recommend (df_p : Pivot (option Q)) (df_title : list titles.row)
    (df_movie_summary : list Netflix.summary)
    (movie_title : string) (min_count : Z) : option (list similar) :=
  match List.filter (fun t => String.eqb (titles.Name t) movie_title) df_title with
  | [] => None
  | t :: _ =>
      let i := titles.Movie_Id t in
      match Netflix.position i (pcolumns df_p) with
      | None => None
      | Some j =>
          let target := column_at j df_p in
          let corr_target := corr_target df_p df_title df_movie_summary target in
          Some (iloc_upto 10 (List.filter (above_min_count min_count) corr_target))
      end
  end.
End Pearson.

End Similar.

(** ** Reading the data files of the MovieLens notebook *)

Module Parsing.
Open Scope string_scope.

(** The whitespace [str.strip()] removes from a byte string. *)
Definition isspace (c : ascii) : bool :=
  let n := nat_of_ascii c in
  Nat.eqb n 32 || (Nat.leb 9 n && Nat.leb n 13).

Fixpoint lstrip (s : string) : string :=
  match s with
  | EmptyString => EmptyString
  | String c s' => if isspace c then lstrip s' else s
  end.

Fixpoint rstrip (s : string) : string :=
  match s with
  | EmptyString => EmptyString
  | String c s' =>
      match rstrip s' with
      | EmptyString => if isspace c then EmptyString else String c EmptyString
      | r => String c r
      end
  end.

(** [i.strip()] *)
Definition strip (s : string) : string := rstrip (lstrip s).

(** The current field gets one more character in front. *)
Definition push (c : ascii) (fields : list string) : list string :=
  match fields with
  | f :: fs => String c f :: fs
  | [] => [String c EmptyString]
  end.

(** [s.split("::")]: the string is cut at every occurrence of "::", found
    from the left, an occurrence starting where the one before it ends at
    the earliest. *)
Fixpoint split (s : string) : list string :=
  match s with
  | EmptyString => [EmptyString]
  | String c s1 =>
      match s1 with
      | String c2 s' =>
          if Ascii.eqb c ":" && Ascii.eqb c2 ":"
          then EmptyString :: split s'
          else push c (split s1)
      | EmptyString => push c (split s1)
      end
  end.

(** [[i.strip().split("::") for i in open(...).readlines()]]: [readlines]
    gives every line with its newline. *)
Definition read_list (lines : list string) : list (list string) :=
  map (fun i => split (strip i)) lines.

(** For comparison: the string has "::" in it; it ends with ":"; it
    starts, or ends, with whitespace. *)
Fixpoint has_separator (s : string) : bool :=
  match s with
  | EmptyString => false
  | String c s1 =>
      match s1 with
      | String c2 _ => (Ascii.eqb c ":" && Ascii.eqb c2 ":") || has_separator s1
      | EmptyString => false
      end
  end.

Fixpoint ends_with (p : ascii -> bool) (s : string) : bool :=
  match s with
  | EmptyString => false
  | String c EmptyString => p c
  | String _ s' => ends_with p s'
  end.

Definition starts_with (p : ascii -> bool) (s : string) : bool :=
  match s with
  | EmptyString => false
  | String c _ => p c
  end.

(** ["::".join(fields)] *)
Definition join (fields : list string) : string := String.concat "::" fields.

(** The line of a data file for a row of fields. *)
Definition line (fields : list string) : string :=
  join fields ++ String "010" EmptyString.

(** The rows of fields that a line can carry: at least one field, no
    field with "::" in it, no field but the last ending with ":", and no
    whitespace at the two ends of the line. *)
Definition writable (fields : list string) : bool :=
  match fields with [] => false | _ => true end
  && forallb (fun f => negb (has_separator f)) fields
  && forallb (fun f => negb (ends_with (Ascii.eqb ":") f)) (removelast fields)
  && negb (starts_with isspace (join fields))
  && negb (ends_with isspace (join fields)).

End Parsing.

(** * Properties *)

(** ** Slicing, sorting and merging *)

Section FrameFacts.
Context {A : Type}.

Lemma iloc_upto_nonneg (n : Z) (l : list A) :
  0 <= n -> iloc_upto n l = firstn (Z.to_nat n) l.
Proof.
  intros Hn. unfold iloc_upto.
  destruct (Z.leb_spec 0 n) as [_ | Hlt]; [reflexivity | lia].
Qed.

Lemma iloc_upto_prefix (n : Z) (l : list A) :
  exists k, iloc_upto n l = firstn k l.
Proof. unfold iloc_upto. destruct (0 <=? n); eexists; reflexivity. Qed.

Lemma In_firstn (k : nat) (l : list A) (x : A) : In x (firstn k l) -> In x l.
Proof.
  intros H. rewrite <- (firstn_skipn k l). apply in_or_app. now left.
Qed.

Lemma In_iloc_upto (n : Z) (l : list A) (x : A) :
  In x (iloc_upto n l) -> In x l.
Proof.
  destruct (iloc_upto_prefix n l) as [k ->]. apply In_firstn.
Qed.

Lemma iloc_upto_length (n : Z) (l : list A) :
  0 <= n -> Z.of_nat (List.length (iloc_upto n l)) <= n.
Proof.
  intros Hn. rewrite iloc_upto_nonneg by assumption.
  pose proof (firstn_le_length (Z.to_nat n) l). lia.
Qed.

Lemma iloc_upto_all (n : Z) (l : list A) :
  Z.of_nat (List.length l) <= n -> iloc_upto n l = l.
Proof.
  intros Hn. rewrite iloc_upto_nonneg by lia.
  apply firstn_all2. lia.
Qed.

Variable key : A -> option Q.

Lemma insert_sorted_Permutation (x : A) (l : list A) :
  Permutation (insert_sorted key x l) (x :: l).
Proof.
  induction l as [| y l IH]; simpl.
  - reflexivity.
  - destruct (key_leb key x y).
    + reflexivity.
    + rewrite IH. apply perm_swap.
Qed.

Lemma argsort_Permutation (l : list A) : Permutation (argsort key l) l.
Proof.
  induction l as [| x l IH]; simpl.
  - reflexivity.
  - rewrite insert_sorted_Permutation. now apply perm_skip.
Qed.

Lemma notnull_isnull_Permutation (l : list A) :
  Permutation (List.filter (notnull key) l ++ List.filter (isnull key) l) l.
Proof.
  induction l as [| x l IH]; simpl.
  - reflexivity.
  - unfold isnull at 1. destruct (notnull key x); simpl.
    + now apply perm_skip.
    + rewrite <- Permutation_middle. now apply perm_skip.
Qed.

Lemma sort_values_desc_Permutation (l : list A) :
  Permutation (sort_values_desc key l) l.
Proof.
  unfold sort_values_desc.
  rewrite <- Permutation_rev, argsort_Permutation, <- Permutation_rev.
  apply notnull_isnull_Permutation.
Qed.

Lemma series_sort_values_desc_Permutation (l : list A) :
  Permutation (series_sort_values_desc key l) l.
Proof.
  unfold series_sort_values_desc.
  rewrite <- Permutation_rev, argsort_Permutation.
  apply notnull_isnull_Permutation.
Qed.

Lemma In_sort_values_desc (l : list A) (x : A) :
  In x (sort_values_desc key l) <-> In x l.
Proof.
  split; apply Permutation_in;
    [| symmetry]; apply sort_values_desc_Permutation.
Qed.

(** *** The result of [sort_values] is in descending order *)

Lemma key_leb_true (a b : A) :
  notnull key a = true -> notnull key b = true ->
  key_leb key a b = true -> key_le key a b.
Proof.
  unfold notnull, key_leb, key_le, key_ge.
  destruct (key a), (key b); try discriminate.
  intros _ _ H. now apply Qle_bool_iff.
Qed.

Lemma key_leb_false (a b : A) :
  notnull key a = true -> notnull key b = true ->
  key_leb key a b = false -> key_le key b a.
Proof.
  unfold notnull, key_leb, key_le, key_ge.
  destruct (key a) as [x |], (key b) as [y |]; try discriminate.
  intros _ _ H. apply Qlt_le_weak, Qnot_le_lt.
  intros Hle. apply Qle_bool_iff in Hle. congruence.
Qed.

Lemma key_le_trans (a b c : A) :
  notnull key b = true -> key_le key a b -> key_le key b c -> key_le key a c.
Proof.
  unfold notnull, key_le, key_ge.
  destruct (key a), (key b), (key c); try discriminate; try tauto.
  intros _ H1 H2. eapply Qle_trans; eassumption.
Qed.

Lemma insert_sorted_StronglySorted (x : A) (l : list A) :
  notnull key x = true -> Forall (fun y => notnull key y = true) l ->
  StronglySorted (key_le key) l -> StronglySorted (key_le key) (insert_sorted key x l).
Proof.
  intros Hx Hl Hs. induction Hs as [| y l Hs IH Hy]; simpl.
  - repeat constructor.
  - inversion Hl as [| ? ? Hny Hnl]; subst.
    destruct (key_leb key x y) eqn:E.
    + constructor; [now constructor |].
      constructor; [now apply key_leb_true |].
      eapply List.Forall_impl; [| exact Hy].
      intros z Hz. eapply key_le_trans; [exact Hny | | exact Hz].
      now apply key_leb_true.
    + constructor; [now apply IH |].
      eapply Permutation_Forall;
        [symmetry; apply insert_sorted_Permutation |].
      constructor; [now apply key_leb_false | exact Hy].
Qed.

Lemma argsort_StronglySorted (l : list A) :
  Forall (fun y => notnull key y = true) l ->
  StronglySorted (key_le key) (argsort key l).
Proof.
  induction 1 as [| x l Hx Hl IH]; simpl.
  - constructor.
  - apply insert_sorted_StronglySorted; try assumption.
    eapply Permutation_Forall; [symmetry; apply argsort_Permutation | exact Hl].
Qed.

Lemma StronglySorted_rev (R : A -> A -> Prop) (l : list A) :
  StronglySorted R l -> StronglySorted (fun a b => R b a) (rev l).
Proof.
  induction 1 as [| x l Hs IH Hx]; simpl.
  - constructor.
  - apply StronglySorted_app. repeat split.
    + intros a b Ha Hb. apply list_elem_of_In in Ha, Hb.
      destruct Hb as [<- | []]. apply in_rev in Ha.
      rewrite List.Forall_forall in Hx. now apply Hx.
    + exact IH.
    + repeat constructor.
Qed.

Lemma filter_notnull_Forall (l : list A) :
  Forall (fun y => notnull key y = true) (List.filter (notnull key) l).
Proof.
  apply List.Forall_forall. intros x Hx. now apply filter_In in Hx.
Qed.

Lemma descending_with_nulls_last (good bad : list A) :
  Forall (fun y => notnull key y = true) good ->
  Forall (fun y => notnull key y = false) bad ->
  StronglySorted (key_ge key) good ->
  StronglySorted (key_ge key) (good ++ bad).
Proof.
  intros Hg Hb Hs. apply StronglySorted_app. repeat split.
  - intros a b Ha Hb'. apply list_elem_of_In in Ha, Hb'.
    rewrite List.Forall_forall in Hg, Hb.
    specialize (Hg a Ha). specialize (Hb b Hb').
    unfold notnull, key_ge in *. destruct (key a), (key b); congruence || exact I.
  - exact Hs.
  - clear Hs Hg. induction Hb as [| b bad Hb Hbad IH]; constructor; [exact IH |].
    eapply List.Forall_impl; [| exact Hbad].
    intros c Hc. unfold notnull, key_ge in *.
    destruct (key b), (key c); congruence || exact I.
Qed.

Lemma filter_isnull_Forall (l : list A) :
  Forall (fun y => notnull key y = false) (List.filter (isnull key) l).
Proof.
  apply List.Forall_forall. intros x Hx. apply filter_In in Hx.
  destruct Hx as [_ Hx]. unfold isnull in Hx. now destruct (notnull key x).
Qed.

Lemma sort_values_desc_StronglySorted (l : list A) :
  StronglySorted (key_ge key) (sort_values_desc key l).
Proof.
  unfold sort_values_desc. apply descending_with_nulls_last.
  - apply Forall_rev.
    eapply Permutation_Forall; [symmetry; apply argsort_Permutation |].
    apply Forall_rev, filter_notnull_Forall.
  - apply filter_isnull_Forall.
  - apply (StronglySorted_rev (key_le key)), argsort_StronglySorted.
    apply Forall_rev, filter_notnull_Forall.
Qed.

End FrameFacts.

Section MergeFacts.
Context {L R : Type} (lkey : L -> Z) (rkey : R -> Z).

Lemma merge_left_In (left : list L) (right : list R) (x : L * option R) :
  In x (merge_left lkey rkey left right) ->
  In (fst x) left /\
  match snd x with
  | Some r => In r right /\ rkey r = lkey (fst x)
  | None => forall r, In r right -> rkey r <> lkey (fst x)
  end.
Proof.
  unfold merge_left. rewrite in_flat_map. intros (l & Hl & Hx).
  destruct (List.filter (fun r => rkey r =? lkey l) right) as [| r0 ms] eqn:E.
  - destruct Hx as [<- | []]. split; [exact Hl |]. simpl.
    intros r Hr Hk.
    assert (Hin : In r (List.filter (fun r => rkey r =? lkey l) right))
      by (apply filter_In; split; [exact Hr | now apply Z.eqb_eq]).
    rewrite E in Hin. exact Hin.
  - apply in_map_iff in Hx. destruct Hx as (r & <- & Hr). split; [exact Hl |].
    simpl. rewrite <- E in Hr. apply filter_In in Hr.
    destruct Hr as [Hr Hk]. split; [exact Hr | now apply Z.eqb_eq].
Qed.

Lemma merge_left_covers (left : list L) (right : list R) (l : L) :
  In l left -> exists o, In (l, o) (merge_left lkey rkey left right).
Proof.
  intros Hl. unfold merge_left.
  destruct (List.filter (fun r => rkey r =? lkey l) right) as [| r0 ms] eqn:E.
  - exists None. apply in_flat_map. exists l. split; [exact Hl |].
    rewrite E. now left.
  - exists (Some r0). apply in_flat_map. exists l. split; [exact Hl |].
    rewrite E. now left.
Qed.

Lemma filter_key_unique (right : list R) (k : Z) :
  List.NoDup (map rkey right) ->
  Z.of_nat (List.length (List.filter (fun r => rkey r =? k) right)) <= 1.
Proof.
  induction right as [| r right IH]; simpl; intros Hnd.
  - lia.
  - inversion Hnd as [| ? ? Hnotin Hnd']; subst.
    destruct (Z.eqb_spec (rkey r) k) as [Hk | Hk].
    + assert (E : List.filter (fun r => rkey r =? k) right = []).
      { destruct (List.filter (fun r => rkey r =? k) right) as [| r' ?] eqn:E;
          [reflexivity |].
        exfalso. apply Hnotin.
        assert (Hin : In r' (List.filter (fun r => rkey r =? k) right))
          by (rewrite E; now left).
        apply filter_In in Hin. destruct Hin as [Hin Hk'].
        apply Z.eqb_eq in Hk'. rewrite Hk, <- Hk'. now apply in_map. }
      rewrite E. simpl. lia.
    + now apply IH.
Qed.

(** With distinct keys on the right, the join keeps the left rows as they
    are, one row each. *)
Lemma merge_left_unique_keys (left : list L) (right : list R) :
  List.NoDup (map rkey right) ->
  map fst (merge_left lkey rkey left right) = left.
Proof.
  intros Hnd. unfold merge_left.
  induction left as [| l left IH]; [reflexivity |].
  cbn [flat_map]. rewrite List.map_app, IH.
  pose proof (filter_key_unique right (lkey l) Hnd) as Hlen.
  destruct (List.filter (fun r => rkey r =? lkey l) right) as [| r0 [| r1 ms]];
    simpl in *; try reflexivity; lia.
Qed.

End MergeFacts.

(** ** [recommend_movies] *)

Section RecommendMovies.
Import MovieLens.

Lemma user_data_In (userID : Z) (df : list ratings.row) (r : ratings.row) :
  In r (user_data userID df) <-> In r df /\ ratings.UserID r = userID.
Proof.
  unfold user_data. rewrite filter_In, Z.eqb_eq. reflexivity.
Qed.

(** The MovieID column of [user_full] holds the movies the user has rated. *)
Lemma user_full_MovieID (userID : Z) (movies_df : list movies.row)
    (df : list ratings.row) (k : Z) :
  isin k (map (fun x => ratings.MovieID (fst x)) (user_full userID movies_df df))
  = Spec.rated_by userID df k.
Proof.
  apply eq_true_iff_eq. unfold isin, Spec.rated_by.
  rewrite !existsb_exists. split.
  - intros (k' & Hin & Hk). apply Z.eqb_eq in Hk. subst k'.
    apply in_map_iff in Hin. destruct Hin as (x & Hx & Hin).
    apply In_sort_values_desc, merge_left_In in Hin.
    destruct Hin as [Hin _]. apply user_data_In in Hin.
    destruct Hin as [Hin Hu]. exists (fst x). split; [exact Hin |].
    apply andb_true_iff. split; apply Z.eqb_eq; congruence.
  - intros (r & Hin & Hr). apply andb_true_iff in Hr.
    destruct Hr as [Hu Hm]. apply Z.eqb_eq in Hu, Hm.
    exists k. split; [| apply Z.eqb_refl].
    destruct (merge_left_covers ratings.MovieID movies.MovieID
                (user_data userID df) movies_df r) as [o Ho].
    { apply user_data_In. now split. }
    apply in_map_iff. exists (r, o). split; [exact Hm |].
    now apply In_sort_values_desc.
Qed.

(** The candidates of [recommend_movies] are the movies of [movies_df] the
    user has no rating for. *)
Lemma not_rated_unrated (userID : Z) (movies_df : list movies.row)
    (df : list ratings.row) :
  not_rated userID movies_df df = Spec.unrated userID movies_df df.
Proof.
  unfold not_rated, Spec.unrated. apply filter_ext. intros m.
  now rewrite user_full_MovieID.
Qed.

Lemma iloc_Some (preds_df : PredFrame) (userID : Z) :
  1 <= userID <= Z.of_nat (List.length (values preds_df)) ->
  exists row, nth_error (values preds_df) (Z.to_nat (userID - 1)) = Some row /\
              iloc preds_df (userID - 1) = Some (userID - 1, row).
Proof.
  intros Hu. unfold iloc.
  destruct (nth_error (values preds_df) (Z.to_nat (userID - 1))) as [row |] eqn:E.
  - exists row. split; [reflexivity |].
    replace ((0 <=? userID - 1) && (userID - 1 <? Z.of_nat (List.length (values preds_df))))
      with true by (symmetry; apply andb_true_iff; split; lia).
    reflexivity.
  - apply nth_error_None in E. lia.
Qed.

(** [recommend_movies] returns for every user that has a row in
    [preds_df], and its second result is the ranked candidates up to
    [num_recommendations]. *)
Lemma recommend_movies_returns (preds_df predictions_df : PredFrame)
    (userID : Z) (movies_df : list movies.row) (df : list ratings.row)
    (num_recommendations : Z) :
  1 <= userID <= Z.of_nat (List.length (values preds_df)) ->
  exists row,
    nth_error (values preds_df) (Z.to_nat (userID - 1)) = Some row /\
    recommend_movies preds_df predictions_df userID movies_df df
      num_recommendations
    = Some (user_full userID movies_df df,
            map fst (iloc_upto num_recommendations
                       (ranked (combine (columns preds_df) row) userID
                          movies_df df))).
Proof.
  intros Hu. destruct (iloc_Some preds_df userID Hu) as (row & Hrow & Hiloc).
  exists row. split; [exact Hrow |].
  unfold recommend_movies. rewrite Hiloc, Z.eqb_refl. reflexivity.
Qed.

(** Outside that range the call raises. *)
Lemma recommend_movies_raises (preds_df predictions_df : PredFrame)
    (userID : Z) (movies_df : list movies.row) (df : list ratings.row)
    (num_recommendations : Z) :
  ~ 1 <= userID <= Z.of_nat (List.length (values preds_df)) ->
  recommend_movies preds_df predictions_df userID movies_df df
    num_recommendations = None.
Proof.
  intros Hu. unfold recommend_movies, iloc.
  set (n := Z.of_nat (List.length (values preds_df))) in *.
  destruct (Z.leb_spec 0 (userID - 1)); destruct (Z.ltb_spec (userID - 1) n);
    simpl; try lia;
    destruct (Z.leb_spec (- n) (userID - 1));
    destruct (Z.ltb_spec (userID - 1) 0); simpl; try reflexivity; try lia;
    (destruct (nth_error (values preds_df) (Z.to_nat (n + (userID - 1))));
     simpl; [| reflexivity];
     destruct (Z.eqb_spec (n + (userID - 1)) (userID - 1)); [lia | reflexivity]).
Qed.

(** The parameter [predictions_df] has no effect on the result. *)
Lemma recommend_movies_ignores_predictions_df (preds_df p1 p2 : PredFrame)
    (userID : Z) (movies_df : list movies.row) (df : list ratings.row)
    (n : Z) :
  recommend_movies preds_df p1 userID movies_df df n
  = recommend_movies preds_df p2 userID movies_df df n.
Proof. reflexivity. Qed.

End RecommendMovies.

(** ** The listing of the Netflix notebook *)

Section Listing.
Import Netflix.
Variable est : Z -> Z -> Q.

Lemma In_combine_seq {T : Type} (l : list T) (s i : nat) (t : T) :
  In (i, t) (combine (seq s (List.length l)) l) <->
  (s <= i)%nat /\ nth_error l (i - s) = Some t.
Proof.
  revert s. induction l as [| x l IH]; intros s; simpl.
  - split; [tauto |]. intros [_ H]. now destruct (i - s)%nat.
  - rewrite IH. split.
    + intros [H | [Hs H]].
      * inversion H; subst. split; [lia |]. now rewrite Nat.sub_diag.
      * split; [lia |]. now replace (i - s)%nat with (S (i - S s)) by lia.
    + intros [Hs H]. destruct (i - s)%nat as [| k] eqn:E.
      * left. inversion H; subst. f_equal. lia.
      * right. split; [lia |]. now replace (i - S s)%nat with k by lia.
Qed.

(** Every row of the listing is a title that [drop_movie_list] does not
    name, found in [df_title] at the row's label, with the score the model
    estimates for customer 683421. *)
Lemma estimates_In (df_title : list titles.row) (drop : list Z) (e : estimate) :
  In e (estimates est df_title drop) <->
  exists t, nth_error df_title (label e) = Some t /\
            isin (titles.Movie_Id t) drop = false /\
            e = {| label := label e; Year := titles.Year t;
                   Name := titles.Name t;
                   Estimate_Score := est 683421 (titles.Movie_Id t) |}.
Proof.
  unfold estimates. rewrite in_map_iff. split.
  - intros ([[i t] sc] & <- & Hin). apply in_map_iff in Hin.
    destruct Hin as ([i' t'] & Heq & Hin). inversion Heq; subst.
    apply filter_In in Hin. destruct Hin as [Hin Hdrop].
    apply In_combine_seq in Hin. destruct Hin as [_ Hnth].
    rewrite Nat.sub_0_r in Hnth. simpl in *.
    exists t. repeat split; [exact Hnth | now apply negb_true_iff].
  - intros (t & Hnth & Hdrop & He).
    exists (label e, t, est 683421 (titles.Movie_Id t)). split.
    + now rewrite He at 3.
    + apply in_map_iff. exists (label e, t). split; [reflexivity |].
      apply filter_In. split.
      * apply In_combine_seq. split; [lia |]. now rewrite Nat.sub_0_r.
      * simpl. now rewrite Hdrop.
Qed.

Lemma isin_In (k : Z) (ks : list Z) : isin k ks = true <-> In k ks.
Proof.
  unfold isin. rewrite existsb_exists. split.
  - intros (k' & Hin & Hk). apply Z.eqb_eq in Hk. now subst.
  - intros Hin. exists k. split; [exact Hin | apply Z.eqb_refl].
Qed.

Lemma user_683421_In (df_title : list titles.row) (drop : list Z) (e : estimate) :
  In e (user_683421 est df_title drop) ->
  exists t, nth_error df_title (label e) = Some t /\
            ~ In (titles.Movie_Id t) drop /\
            Estimate_Score e = est 683421 (titles.Movie_Id t).
Proof.
  unfold user_683421. intros Hin.
  apply In_iloc_upto, In_sort_values_desc, estimates_In in Hin.
  destruct Hin as (t & Hnth & Hdrop & He). exists t.
  split; [exact Hnth |]. split.
  - intros Hin. apply isin_In in Hin. congruence.
  - now rewrite He.
Qed.

End Listing.

(** ** Statements about the recommendations *)

Section Recommendations.
Import MovieLens.

Lemma NoDup_map_fst_combine {X Y : Type} (l : list X) (l' : list Y) :
  List.NoDup l -> List.NoDup (map fst (combine l l')).
Proof.
  intros Hnd. revert l'. induction Hnd as [| x l Hx Hnd IH]; intros [| y l']; simpl;
    try constructor.
  - intros Hin. apply Hx. apply in_map_iff in Hin.
    destruct Hin as ([x' y'] & Hfst & Hin). simpl in Hfst. subst x'.
    eapply in_combine_l. exact Hin.
  - apply IH.
Qed.

Lemma sorted_user_predictions_NoDup (cols : list Z) (row : list Q) :
  List.NoDup cols ->
  List.NoDup (map fst (sorted_user_predictions (combine cols row))).
Proof.
  intros Hnd. eapply Permutation_NoDup.
  - apply Permutation_map. symmetry.
    apply series_sort_values_desc_Permutation.
  - now apply NoDup_map_fst_combine.
Qed.

(** What [scored] holds: a candidate the user has not rated, with the
    prediction of its MovieID in the user's row when there is one. *)
Lemma scored_In (row : list (Z * Q)) (userID : Z) (movies_df : list movies.row)
    (df : list ratings.row) (x : movies.row * option (Z * Q)) :
  In x (scored row userID movies_df df) ->
  In (fst x) (Spec.unrated userID movies_df df) /\
  match snd x with
  | Some p => In p row /\ fst p = movies.MovieID (fst x)
  | None => forall p, In p row -> fst p <> movies.MovieID (fst x)
  end.
Proof.
  unfold scored. intros Hin. apply merge_left_In in Hin.
  rewrite not_rated_unrated in Hin. destruct Hin as [Hl Hr].
  split; [exact Hl |]. destruct (snd x) as [p |].
  - destruct Hr as [Hr Hk]. split; [| exact Hk].
    eapply Permutation_in; [apply series_sort_values_desc_Permutation | exact Hr].
  - intros p Hp. apply Hr.
    eapply Permutation_in;
      [symmetry; apply series_sort_values_desc_Permutation | exact Hp].
Qed.

Lemma unrated_not_rated (userID : Z) (movies_df : list movies.row)
    (df : list ratings.row) (m : movies.row) (r : ratings.row) :
  In m (Spec.unrated userID movies_df df) -> In r df ->
  ratings.UserID r = userID -> ratings.MovieID r <> movies.MovieID m.
Proof.
  unfold Spec.unrated, Spec.rated_by. intros Hm Hr Hu Hk.
  apply filter_In in Hm. destruct Hm as [_ Hm].
  apply negb_true_iff in Hm.
  assert (Ht : existsb (fun r => (ratings.UserID r =? userID)
                                 && (ratings.MovieID r =? movies.MovieID m)) df = true).
  { apply existsb_exists. exists r. split; [exact Hr |].
    apply andb_true_iff. split; now apply Z.eqb_eq. }
  congruence.
Qed.

Lemma ranked_fst_In (row : list (Z * Q)) (userID : Z)
    (movies_df : list movies.row) (df : list ratings.row) (n : Z) (m : movies.row) :
  In m (map fst (iloc_upto n (ranked row userID movies_df df))) ->
  In m (Spec.unrated userID movies_df df).
Proof.
  intros Hin. apply in_map_iff in Hin. destruct Hin as (x & <- & Hin).
  apply In_iloc_upto, In_sort_values_desc, scored_In in Hin. tauto.
Qed.

(** C1 (as amended).  For every user that has a row in [preds_df],
    [recommend_movies] returns, and no returned movie is one the user has a
    rating for.  The listing of the Netflix notebook leaves out the movies
    of [drop_movie_list] and no others: each of its rows is a title that
    is not on that list, and when at most ten titles are retained every
    such title is listed, rated by the customer or not. *)
Theorem recommend_movies_excludes_rated :
  (forall (preds_df predictions_df : PredFrame) (userID : Z)
          (movies_df : list movies.row) (df : list ratings.row) (n : Z),
      1 <= userID <= Z.of_nat (List.length (values preds_df)) ->
      exists uf recs,
        recommend_movies preds_df predictions_df userID movies_df df n
        = Some (uf, recs) /\
        forall m r, In m recs -> In r df -> ratings.UserID r = userID ->
                    ratings.MovieID r <> movies.MovieID m)
  /\
  (forall (est : Z -> Z -> Q) (df_title : list titles.row) (drop : list Z),
      (forall e, In e (Netflix.user_683421 est df_title drop) ->
         exists t, nth_error df_title (Netflix.label e) = Some t /\
                   ~ In (titles.Movie_Id t) drop) /\
      (Z.of_nat (List.length (Netflix.estimates est df_title drop)) <= 10 ->
       forall i t, nth_error df_title i = Some t ->
                   ~ In (titles.Movie_Id t) drop ->
         exists e, In e (Netflix.user_683421 est df_title drop) /\
                   Netflix.label e = i)).
Proof.
  split.
  - intros preds_df predictions_df userID movies_df df n Hu.
    destruct (recommend_movies_returns preds_df predictions_df userID
                movies_df df n Hu) as (row & _ & Hrec).
    eexists _, _. split; [exact Hrec |].
    intros m r Hm Hr Hur. apply ranked_fst_In in Hm.
    eapply unrated_not_rated; eassumption.
  - intros est df_title drop. split.
    + intros e He. apply user_683421_In in He.
      destruct He as (t & Hnth & Hdrop & _). eauto.
    + intros Hlen i t Hnth Hdrop.
      exists {| Netflix.label := i; Netflix.Year := titles.Year t;
                Netflix.Name := titles.Name t;
                Netflix.Estimate_Score := est 683421 (titles.Movie_Id t) |}.
      split; [| reflexivity].
      unfold Netflix.user_683421. rewrite iloc_upto_all.
      * apply In_sort_values_desc, estimates_In. exists t.
        repeat split; [exact Hnth |].
        destruct (isin (titles.Movie_Id t) drop) eqn:E; [| reflexivity].
        apply isin_In in E. contradiction.
      * rewrite (Permutation_length (sort_values_desc_Permutation _ _)).
        exact Hlen.
Qed.

Lemma recommend_movies_excludes_rated_witness :
  (exists uf recs,
      recommend_movies Examples.preds_df Examples.preds_df 1
        Examples.movies_df Examples.ratings_df 2 = Some (uf, recs) /\
      forall m r, In m recs -> In r Examples.ratings_df ->
                  ratings.UserID r = 1 ->
                  ratings.MovieID r <> movies.MovieID m)
  /\
  (exists e, In e (Netflix.user_683421 Examples.est Examples.df_title [2]) /\
             Netflix.label e = 0%nat).
Proof.
  split.
  - apply (proj1 recommend_movies_excludes_rated). simpl. lia.
  - apply (proj2 (proj2 recommend_movies_excludes_rated
                    Examples.est Examples.df_title [2]))
      with (t := titles.mk 1 (Some 2003) "Dinosaur Planet").
    + simpl. lia.
    + reflexivity.
    + simpl. intros [H | []]. discriminate H.
Defined.

(** C1 as stated fails on the Netflix notebook: customer 683421 has rated
    movies 1 and 2, neither is on [drop_movie_list], and both are in the
    listing printed for that customer. *)
Lemma netflix_listing_includes_rated :
  let store := Netflix.trim Examples.df in
  let listing :=
    Netflix.user_683421 Examples.est Examples.df_title
      (Netflix.drop_movie_list Examples.df) in
  exists e t,
    In e listing /\
    nth_error Examples.df_title (Netflix.label e) = Some t /\
    In (Netflix.mk 683421 5 (titles.Movie_Id t)) store.
Proof.
  exists {| Netflix.label := 0; Netflix.Year := Some 2003;
            Netflix.Name := "Dinosaur Planet"; Netflix.Estimate_Score := 1 |}.
  exists (titles.mk 1 (Some 2003) "Dinosaur Planet").
  vm_compute. tauto.
Qed.

(** C3 (as amended).  [recommend_movies] returns the rows up to position
    [num_recommendations] (the first [num_recommendations] rows when the
    number is not negative) of the unrated candidates sorted on their
    predicted score in descending order, the candidates without a
    prediction last.  The sort has the score as its only key: rows with
    equal scores are not put in the order of their MovieID.  The same holds
    for the ten rows of the Netflix listing. *)
Theorem recommend_movies_sorted_by_score :
  (forall (preds_df predictions_df : PredFrame) (userID : Z)
          (movies_df : list movies.row) (df : list ratings.row) (n : Z),
      1 <= userID <= Z.of_nat (List.length (values preds_df)) ->
      exists row uf,
        nth_error (values preds_df) (Z.to_nat (userID - 1)) = Some row /\
        let predictions := combine (columns preds_df) row in
        let candidates := scored predictions userID movies_df df in
        let sorted := ranked predictions userID movies_df df in
        recommend_movies preds_df predictions_df userID movies_df df n
        = Some (uf, map fst (iloc_upto n sorted)) /\
        (0 <= n -> iloc_upto n sorted = firstn (Z.to_nat n) sorted) /\
        Permutation sorted candidates /\
        StronglySorted (key_ge prediction_key) sorted /\
        (forall x, In x candidates ->
           In (fst x) (Spec.unrated userID movies_df df) /\
           match snd x with
           | Some p => In p predictions /\ fst p = movies.MovieID (fst x)
           | None => forall p, In p predictions ->
                               fst p <> movies.MovieID (fst x)
           end))
  /\
  (forall (est : Z -> Z -> Q) (df_title : list titles.row) (drop : list Z),
      let sorted :=
        sort_values_desc Netflix.score_key
          (Netflix.estimates est df_title drop) in
      Netflix.user_683421 est df_title drop = firstn 10 sorted /\
      Permutation sorted (Netflix.estimates est df_title drop) /\
      StronglySorted (key_ge Netflix.score_key) sorted).
Proof.
  split.
  - intros preds_df predictions_df userID movies_df df n Hu.
    destruct (recommend_movies_returns preds_df predictions_df userID
                movies_df df n Hu) as (row & Hrow & Hrec).
    exists row. eexists. split; [exact Hrow |]. cbv zeta.
    split; [exact Hrec |].
    split; [apply iloc_upto_nonneg |].
    split; [apply sort_values_desc_Permutation |].
    split; [apply sort_values_desc_StronglySorted |].
    intros x. apply scored_In.
  - intros est df_title drop. cbv zeta.
    split; [reflexivity |].
    split; [apply sort_values_desc_Permutation |].
    apply sort_values_desc_StronglySorted.
Qed.

Lemma recommend_movies_sorted_by_score_witness :
  exists row uf,
    nth_error (values Examples.preds_df) 0 = Some row /\
    let predictions := combine (columns Examples.preds_df) row in
    let candidates :=
      scored predictions 1 Examples.movies_df Examples.ratings_df in
    let sorted := ranked predictions 1 Examples.movies_df Examples.ratings_df in
    recommend_movies Examples.preds_df Examples.preds_df 1
      Examples.movies_df Examples.ratings_df 2
    = Some (uf, map fst (iloc_upto 2 sorted)) /\
    (0 <= 2 -> iloc_upto 2 sorted = firstn 2 sorted) /\
    Permutation sorted candidates /\
    StronglySorted (key_ge prediction_key) sorted /\
    (forall x, In x candidates ->
       In (fst x) (Spec.unrated 1 Examples.movies_df Examples.ratings_df) /\
       match snd x with
       | Some p => In p predictions /\ fst p = movies.MovieID (fst x)
       | None => forall p, In p predictions ->
                           fst p <> movies.MovieID (fst x)
       end).
Proof.
  apply (proj1 recommend_movies_sorted_by_score
           Examples.preds_df Examples.preds_df 1
           Examples.movies_df Examples.ratings_df 2).
  simpl. lia.
Defined.

(** C3 as stated fails: user 1 has the same predicted score, 3, for
    movies 1 and 2, and [recommend_movies] returns movie 2 before movie 1,
    the order of [movies_df]; the recommender of the specification returns
    movie 1 first. *)
Lemma recommend_movies_ties_not_by_item_id :
  let predict := fun k : Z => if k =? 3 then 1%Q else 3%Q in
  option_map snd
    (recommend_movies Examples.preds_df Examples.preds_df 1
       Examples.movies_df Examples.ratings_df 2)
  = Some [movies.mk 2 "Jumanji (1995)" "Adventure";
          movies.mk 1 "Toy Story (1995)" "Animation"]
  /\ Spec.recommend predict 1 Examples.movies_df Examples.ratings_df 2
     = [movies.mk 1 "Toy Story (1995)" "Animation";
        movies.mk 2 "Jumanji (1995)" "Adventure"]
  /\ option_map snd
       (recommend_movies Examples.preds_df Examples.preds_df 1
          Examples.movies_df Examples.ratings_df 2)
     <> Some (Spec.recommend predict 1 Examples.movies_df Examples.ratings_df 2).
Proof.
  cbv zeta. repeat split; try (vm_compute; reflexivity).
  vm_compute. discriminate.
Qed.

(** C10 (as amended).  For [num_recommendations >= 0], a user that has a
    row in [preds_df], and the distinct column labels a pivot gives
    [preds_df], [recommend_movies] returns at most [num_recommendations]
    rows, and when the movies the user has not rated are no more than that,
    it returns all of them. *)
Theorem recommend_movies_at_most_num_recommendations
    (preds_df predictions_df : PredFrame) (userID : Z)
    (movies_df : list movies.row) (df : list ratings.row)
    (num_recommendations : Z) :
  0 <= num_recommendations ->
  1 <= userID <= Z.of_nat (List.length (values preds_df)) ->
  List.NoDup (columns preds_df) ->
  exists uf recs,
    recommend_movies preds_df predictions_df userID movies_df df
      num_recommendations = Some (uf, recs) /\
    Z.of_nat (List.length recs) <= num_recommendations /\
    (Z.of_nat (List.length (Spec.unrated userID movies_df df))
       <= num_recommendations ->
     Permutation recs (Spec.unrated userID movies_df df)).
Proof.
  intros Hn Hu Hnd.
  destruct (recommend_movies_returns preds_df predictions_df userID
              movies_df df num_recommendations Hu) as (row & _ & Hrec).
  eexists _, _. split; [exact Hrec |].
  set (predictions := combine (columns preds_df) row).
  assert (Hperm : Permutation
            (map fst (ranked predictions userID movies_df df))
            (Spec.unrated userID movies_df df)).
  { unfold ranked. rewrite sort_values_desc_Permutation.
    unfold scored. rewrite merge_left_unique_keys.
    - now rewrite not_rated_unrated.
    - now apply sorted_user_predictions_NoDup. }
  split.
  - rewrite length_map. now apply iloc_upto_length.
  - intros Hlen. rewrite iloc_upto_all; [exact Hperm |].
    rewrite <- (Permutation_length Hperm), length_map in Hlen. exact Hlen.
Qed.

Lemma recommend_movies_at_most_num_recommendations_witness :
  exists uf recs,
    recommend_movies Examples.preds_df Examples.preds_df 1
      Examples.movies_df Examples.ratings_df 3 = Some (uf, recs) /\
    Z.of_nat (List.length recs) <= 3 /\
    (Z.of_nat (List.length
                 (Spec.unrated 1 Examples.movies_df Examples.ratings_df)) <= 3 ->
     Permutation recs (Spec.unrated 1 Examples.movies_df Examples.ratings_df)).
Proof.
  apply (recommend_movies_at_most_num_recommendations
           Examples.preds_df Examples.preds_df 1
           Examples.movies_df Examples.ratings_df 3).
  - lia.
  - simpl. lia.
  - simpl. repeat constructor; simpl; intuition lia.
Defined.

(** C10 as stated fails for a negative [num_recommendations]: the slice
    [iloc[:-1]] drops the last row only, and two rows are returned. *)
Lemma recommend_movies_negative_num_recommendations :
  exists uf recs,
    recommend_movies Examples.preds_df Examples.preds_df 1
      Examples.movies_df Examples.ratings_df (-1) = Some (uf, recs) /\
    List.length recs = 2%nat /\
    ~ Z.of_nat (List.length recs) <= -1.
Proof.
  eexists _, _. split; [vm_compute; reflexivity |].
  split; [reflexivity |]. simpl. lia.
Qed.

End Recommendations.

(** ** Row and column labels *)

Lemma insert_unique_In (x k : Z) (l : list Z) :
  In k (insert_unique x l) <-> k = x \/ In k l.
Proof.
  induction l as [| y l IH]; simpl.
  - intuition.
  - destruct (Z.ltb_spec x y); [simpl; intuition |].
    destruct (Z.eqb_spec x y); simpl; [subst; intuition |].
    rewrite IH. intuition.
Qed.

Lemma sorted_unique_In (k : Z) (l : list Z) :
  In k (sorted_unique l) <-> In k l.
Proof.
  induction l as [| x l IH]; simpl; [reflexivity |].
  rewrite insert_unique_In, IH. intuition.
Qed.

Lemma insert_unique_sorted (x : Z) (l : list Z) :
  StronglySorted Z.lt l -> StronglySorted Z.lt (insert_unique x l).
Proof.
  induction 1 as [| y l Hs IH Hy]; simpl.
  - repeat constructor.
  - destruct (Z.ltb_spec x y).
    + constructor; [now constructor |].
      constructor; [assumption |].
      eapply List.Forall_impl; [| exact Hy]. intros; simpl in *; lia.
    + destruct (Z.eqb_spec x y); [now constructor |].
      constructor; [exact IH |].
      apply List.Forall_forall. intros k Hk. apply insert_unique_In in Hk.
      rewrite List.Forall_forall in Hy. destruct Hk as [-> | Hk]; [lia | auto].
Qed.

Lemma sorted_unique_sorted (l : list Z) : StronglySorted Z.lt (sorted_unique l).
Proof.
  induction l as [| x l IH]; simpl; [constructor |].
  now apply insert_unique_sorted.
Qed.

Lemma sorted_unique_NoDup (l : list Z) : List.NoDup (sorted_unique l).
Proof.
  pose proof (sorted_unique_sorted l) as Hs.
  induction Hs as [| y l' Hs IH Hy]; constructor; [| exact IH].
  intros Hin. rewrite List.Forall_forall in Hy. specialize (Hy y Hin). lia.
Qed.

(** ** The data slicing of the Netflix notebook *)

Section Slicing.
Import Netflix.

Lemma groupby_agg_In (by_ : row -> Z) (df : list row) (s : summary) :
  In s (groupby_agg by_ df) ->
  In (group s) (map by_ df) /\ count s = reviews by_ df (group s).
Proof.
  unfold groupby_agg. rewrite in_map_iff. intros (k & <- & Hk).
  rewrite sorted_unique_In in Hk. split; [exact Hk | reflexivity].
Qed.

Lemma groupby_agg_covers (by_ : row -> Z) (df : list row) (r : row) :
  In r df ->
  exists s, In s (groupby_agg by_ df) /\ group s = by_ r /\
            count s = reviews by_ df (by_ r).
Proof.
  intros Hr. unfold groupby_agg. eexists. split.
  - apply in_map_iff. exists (by_ r). split; [reflexivity |].
    apply sorted_unique_In. now apply in_map.
  - split; reflexivity.
Qed.

(** A key of the table is on the drop list exactly when its number of
    reviews is below the benchmark. *)
Lemma drop_list_isin (by_ : row -> Z) (df : list row) (b : Z) (r : row) :
  In r df ->
  isin (by_ r) (drop_list (Some b) (groupby_agg by_ df))
  = (reviews by_ df (by_ r) <? b).
Proof.
  intros Hr. apply eq_true_iff_eq. rewrite isin_In. unfold drop_list.
  rewrite in_map_iff. split.
  - intros (s & Hg & Hs). apply filter_In in Hs. destruct Hs as [Hs Hb].
    apply groupby_agg_In in Hs. destruct Hs as [_ Hc].
    simpl in Hb. now rewrite Hc, Hg in Hb.
  - intros Hb. destruct (groupby_agg_covers by_ df r Hr) as (s & Hs & Hg & Hc).
    exists s. split; [exact Hg |]. apply filter_In. split; [exact Hs |].
    simpl. now rewrite Hc.
Qed.

Lemma benchmark_Some (by_ : row -> Z) (df : list row) :
  df <> [] -> exists b, benchmark (groupby_agg by_ df) = Some b.
Proof.
  intros Hne. unfold benchmark, quantile.
  destruct (map count (groupby_agg by_ df)) as [| c cs] eqn:E.
  - exfalso. destruct df as [| r df]; [congruence |].
    destruct (groupby_agg_covers by_ (r :: df) r (or_introl eq_refl))
      as (s & Hs & _).
    apply (in_map count) in Hs. rewrite E in Hs. exact Hs.
  - eexists. reflexivity.
Qed.

End Slicing.

(** C9.  The benchmarks exist for every table that has a row, and a row of
    the table is in the trimmed table exactly when the number of reviews of
    its movie, counted before the trim, is at least [movie_benchmark], and
    that of its customer is at least [cust_benchmark]. *)
Theorem trim_keeps_rows_at_benchmark (df : list Netflix.row) :
  match Netflix.movie_benchmark df, Netflix.cust_benchmark df with
  | Some bm, Some bc =>
      forall r, In r (Netflix.trim df) <->
                In r df /\
                bm <= Netflix.reviews Netflix.Movie_Id df (Netflix.Movie_Id r) /\
                bc <= Netflix.reviews Netflix.Cust_Id df (Netflix.Cust_Id r)
  | _, _ => df = []
  end.
Proof.
  destruct df as [| r0 df0] eqn:Edf; [reflexivity |]. rewrite <- Edf.
  assert (Hne : df <> []) by (subst; discriminate).
  destruct (benchmark_Some Netflix.Movie_Id df Hne) as [bm Hbm].
  destruct (benchmark_Some Netflix.Cust_Id df Hne) as [bc Hbc].
  unfold Netflix.movie_benchmark, Netflix.cust_benchmark,
    Netflix.df_movie_summary, Netflix.df_cust_summary.
  rewrite Hbm, Hbc. intros r.
  unfold Netflix.trim, Netflix.drop_movie_list, Netflix.drop_cust_list,
    Netflix.movie_benchmark, Netflix.cust_benchmark,
    Netflix.df_movie_summary, Netflix.df_cust_summary.
  rewrite Hbm, Hbc, !filter_In, !negb_true_iff.
  split.
  - intros [[Hr Hm] Hc].
    rewrite drop_list_isin in Hm, Hc by exact Hr.
    apply Z.ltb_ge in Hm, Hc. tauto.
  - intros (Hr & Hm & Hc).
    rewrite !drop_list_isin by exact Hr.
    repeat split; [exact Hr | |]; now apply Z.ltb_ge.
Qed.

(** On the example table both benchmarks are 2, and the row of customer 7
    for movie 1 stays. *)
Lemma trim_keeps_rows_at_benchmark_witness :
  In (Netflix.mk 7 3 1) (Netflix.trim Examples.df) <->
  In (Netflix.mk 7 3 1) Examples.df /\
  2 <= Netflix.reviews Netflix.Movie_Id Examples.df 1 /\
  2 <= Netflix.reviews Netflix.Cust_Id Examples.df 7.
Proof. exact (trim_keeps_rows_at_benchmark Examples.df (Netflix.mk 7 3 1)). Defined.

(** ** The customer by movie matrix of the Netflix notebook *)

Section PivotTable.
Import Netflix.

Lemma position_Some (k : Z) (ks : list Z) :
  In k ks -> exists i, position k ks = Some i /\ nth_error ks i = Some k.
Proof.
  induction ks as [| k' ks IH]; simpl; [tauto |].
  intros Hin. destruct (Z.eqb_spec k k') as [-> | Hne].
  - exists 0%nat. split; reflexivity.
  - destruct Hin as [-> | Hin]; [congruence |].
    destruct (IH Hin) as (i & Hp & Hn). exists (S i). rewrite Hp. split; auto.
Qed.

Lemma position_None (k : Z) (ks : list Z) :
  ~ In k ks -> position k ks = None.
Proof.
  induction ks as [| k' ks IH]; simpl; [reflexivity |].
  intros Hin. destruct (Z.eqb_spec k k') as [-> | Hne]; [tauto |].
  rewrite IH; [reflexivity | tauto].
Qed.

Lemma ratings_of_nil_l (df : list row) (u m : Z) :
  ~ In u (map Cust_Id df) -> ratings_of df u m = [].
Proof.
  intros Hu. unfold ratings_of.
  destruct (List.filter _ df) as [| r l] eqn:E; [reflexivity |].
  exfalso. apply Hu.
  assert (Hin : In r (r :: l)) by now left. rewrite <- E in Hin.
  apply filter_In in Hin. destruct Hin as [Hin Hk].
  apply andb_true_iff in Hk. destruct Hk as [Hk _]. apply Z.eqb_eq in Hk.
  subst u. now apply in_map.
Qed.

Lemma ratings_of_nil_r (df : list row) (u m : Z) :
  ~ In m (map Movie_Id df) -> ratings_of df u m = [].
Proof.
  intros Hm. unfold ratings_of.
  destruct (List.filter _ df) as [| r l] eqn:E; [reflexivity |].
  exfalso. apply Hm.
  assert (Hin : In r (r :: l)) by now left. rewrite <- E in Hin.
  apply filter_In in Hin. destruct Hin as [Hin Hk].
  apply andb_true_iff in Hk. destruct Hk as [_ Hk]. apply Z.eqb_eq in Hk.
  subst m. now apply in_map.
Qed.

(** The cell of a pair is the mean of the ratings the table has for it,
    NaN when it has none. *)
Lemma pivot_table_cell (df : list row) (u m : Z) :
  cell (pivot_table df) u m = np_mean (ratings_of df u m).
Proof.
  unfold cell, pivot_table. simpl.
  destruct (in_dec Z.eq_dec u (map Cust_Id df)) as [Hu | Hu].
  - destruct (in_dec Z.eq_dec m (map Movie_Id df)) as [Hm | Hm].
    + apply sorted_unique_In in Hu, Hm.
      destruct (position_Some _ _ Hu) as (i & -> & Hi).
      destruct (position_Some _ _ Hm) as (j & -> & Hj).
      rewrite (map_nth_error _ _ _ Hi), (map_nth_error _ _ _ Hj).
      reflexivity.
    + rewrite (ratings_of_nil_r df u m Hm). rewrite <- sorted_unique_In in Hm.
      rewrite (position_None _ _ Hm).
      now destruct (position u (sorted_unique (map Cust_Id df))).
  - rewrite (ratings_of_nil_l df u m Hu). rewrite <- sorted_unique_In in Hu.
    now rewrite (position_None _ _ Hu).
Qed.

Lemma sorted_unique_twice (l : list Z) (x : Z) :
  sorted_unique (l ++ [x; x]) = sorted_unique (l ++ [x]).
Proof.
  unfold sorted_unique. rewrite !fold_right_app. simpl.
  now rewrite Z.ltb_irrefl, Z.eqb_refl.
Qed.

Lemma ratings_of_app (df df' : list row) (u m : Z) :
  ratings_of (df ++ df') u m = ratings_of df u m ++ ratings_of df' u m.
Proof. unfold ratings_of. now rewrite List.filter_app, List.map_app. Qed.

Lemma ratings_of_same (r : row) :
  ratings_of [r] (Cust_Id r) (Movie_Id r) = [Rating r].
Proof. unfold ratings_of. simpl. now rewrite !Z.eqb_refl. Qed.

End PivotTable.

(** C6 (as amended).  [df_p] has one row per customer and one column per
    movie, so at most one cell for a (Cust_Id, Movie_Id) pair, and the cell
    holds the mean of all the ratings the table has for the pair.  A triple
    ingested twice gives the same row and column labels as the triple
    ingested once, and for a pair the table had no rating for, the cell
    equals the rating of the triple.  A rating is not overwritten by a
    later one for the same pair.  In the MovieLens notebook
    [ratings_df.pivot] raises as soon as a pair occurs twice. *)
Theorem pivot_table_one_cell_per_pair :
  (forall df : list Netflix.row,
      let df_p := Netflix.pivot_table df in
      List.NoDup (index df_p) /\ List.NoDup (pcolumns df_p) /\
      forall u m, Netflix.cell df_p u m
                  = Netflix.np_mean (Netflix.ratings_of df u m))
  /\
  (forall (df : list Netflix.row) (t : Netflix.row),
      index (Netflix.pivot_table (df ++ [t; t]))
        = index (Netflix.pivot_table (df ++ [t])) /\
      pcolumns (Netflix.pivot_table (df ++ [t; t]))
        = pcolumns (Netflix.pivot_table (df ++ [t])) /\
      (Netflix.ratings_of df (Netflix.Cust_Id t) (Netflix.Movie_Id t) = [] ->
       exists v,
         Netflix.cell (Netflix.pivot_table (df ++ [t; t]))
           (Netflix.Cust_Id t) (Netflix.Movie_Id t) = Some v /\
         (v == Netflix.Rating t)%Q))
  /\
  (forall (ratings_df : list ratings.row) (r r' : ratings.row),
      In r ratings_df ->
      ratings.UserID r' = ratings.UserID r ->
      ratings.MovieID r' = ratings.MovieID r ->
      MovieLens.pivot (ratings_df ++ [r']) = None).
Proof.
  split; [| split].
  - intros df. cbv zeta. split; [apply sorted_unique_NoDup |].
    split; [apply sorted_unique_NoDup | apply pivot_table_cell].
  - intros df t. simpl. rewrite !List.map_app. simpl.
    rewrite !sorted_unique_twice. repeat split.
    intros Hfresh. rewrite pivot_table_cell.
    change [t; t] with ([t] ++ [t]).
    rewrite !ratings_of_app, Hfresh, ratings_of_same. simpl.
    eexists. split; [reflexivity |]. unfold Qsum. simpl. field.
  - intros ratings_df r r' Hin Hu Hm. unfold MovieLens.pivot.
    assert (Hdup : MovieLens.has_duplicate_entries (ratings_df ++ [r']) = true).
    { induction ratings_df as [| r0 df IH]; [contradiction |]. simpl.
      apply orb_true_iff. destruct Hin as [-> | Hin].
      - left. apply existsb_exists. exists r'. split.
        + apply in_or_app. right. now left.
        + unfold MovieLens.same_entry. rewrite Hu, Hm, !Z.eqb_refl. reflexivity.
      - right. now apply IH. }
    now rewrite Hdup.
Qed.

Lemma pivot_table_one_cell_per_pair_witness :
  (exists v,
      Netflix.cell
        (Netflix.pivot_table (Examples.df ++ [Netflix.mk 9 4 1; Netflix.mk 9 4 1]))
        9 1 = Some v /\ (v == 4)%Q)
  /\
  MovieLens.pivot (Examples.ratings_df ++ [ratings.mk 1 3 2 978300999]) = None.
Proof.
  split.
  - apply (proj2 (proj2 (proj1 (proj2 pivot_table_one_cell_per_pair)
                           Examples.df (Netflix.mk 9 4 1)))).
    reflexivity.
  - apply (proj2 (proj2 pivot_table_one_cell_per_pair)
             Examples.ratings_df (ratings.mk 1 3 5 978300760)
             (ratings.mk 1 3 2 978300999)).
    + simpl. now left.
    + reflexivity.
    + reflexivity.
Defined.

(** C6 as stated fails: customer 1 rates movie 1 with 1 and later with 5;
    the cell of the pair is 3, not the later rating. *)
Lemma pivot_table_averages_duplicates :
  exists v,
    Netflix.cell (Netflix.pivot_table [Netflix.mk 1 1 1; Netflix.mk 1 5 1]) 1 1
      = Some v /\
    (v == 3)%Q /\ ~ (v == 5)%Q.
Proof.
  eexists. split; [vm_compute; reflexivity |].
  split; [reflexivity | discriminate].
Qed.

(** ** The ratings matrix of the MovieLens notebook *)

Section RatingsMatrix.
Import MovieLens.

Lemma same_entry_key (a b : ratings.row) :
  same_entry a b = true <-> entry_key a = entry_key b.
Proof.
  unfold same_entry, entry_key. rewrite andb_true_iff, !Z.eqb_eq.
  split; [intros [-> ->]; reflexivity | intros H; inversion H; auto].
Qed.

Lemma existsb_same_entry (r : ratings.row) (df : list ratings.row) :
  existsb (same_entry r) df = true <-> In (entry_key r) (map entry_key df).
Proof.
  rewrite existsb_exists, in_map_iff. split.
  - intros (x & Hx & Hk). exists x. split; [| exact Hx].
    symmetry. now apply same_entry_key.
  - intros (x & Hk & Hx). exists x. split; [exact Hx |].
    now apply same_entry_key.
Qed.

(** [pivot] succeeds exactly on the tables in which no (UserID, MovieID)
    pair occurs twice. *)
Lemma has_duplicate_entries_false (df : list ratings.row) :
  has_duplicate_entries df = false <-> List.NoDup (map entry_key df).
Proof.
  induction df as [| r df IH]; simpl.
  - split; [constructor | reflexivity].
  - rewrite orb_false_iff, IH. split.
    + intros [Hr Hnd]. constructor; [| exact Hnd].
      intros Hin. apply existsb_same_entry in Hin. congruence.
    + intros Hnd. inversion Hnd as [| ? ? Hr Hnd']; subst.
      split; [| exact Hnd'].
      destruct (existsb (same_entry r) df) eqn:E; [| reflexivity].
      apply existsb_same_entry in E. contradiction.
Qed.

Lemma entry_cons (r : ratings.row) (df : list ratings.row) (u m : Z) :
  entry (r :: df) u m =
  if (ratings.UserID r =? u) && (ratings.MovieID r =? m)
  then Some (ratings.Rating r) else entry df u m.
Proof.
  unfold entry. simpl.
  now destruct ((ratings.UserID r =? u) && (ratings.MovieID r =? m)).
Qed.

(** The head row is of another pair: the entry is looked up in the rest. *)
Ltac skip_other_row :=
  match goal with
  | IH : List.NoDup _ -> (entry ?df ?u ?m = Some ?v <-> _),
    Hnd : List.NoDup (map entry_key ?df) |- _ =>
      rewrite (IH Hnd);
      split; intros (r' & Hin & Hk & Hv); exists r';
      [ repeat split; [now right | exact Hk | exact Hv]
      | destruct Hin as [<- | Hin]; [| repeat split; assumption];
        inversion Hk; congruence ]
  end.

Lemma entry_None (df : list ratings.row) (u m : Z) :
  ~ In (u, m) (map entry_key df) -> entry df u m = None.
Proof.
  induction df as [| r df IH]; [reflexivity |].
  intros Hin. rewrite entry_cons.
  destruct (Z.eqb_spec (ratings.UserID r) u) as [Hu | Hu];
    destruct (Z.eqb_spec (ratings.MovieID r) m) as [Hm | Hm]; simpl;
    try (apply IH; intros H; apply Hin; now right).
  exfalso. apply Hin. left. unfold entry_key. now rewrite Hu, Hm.
Qed.

(** Without duplicates, the entry of a pair is the rating of the one row
    of the pair. *)
Lemma entry_Some (df : list ratings.row) (u m v : Z) :
  List.NoDup (map entry_key df) ->
  (entry df u m = Some v <->
   exists r, In r df /\ entry_key r = (u, m) /\ ratings.Rating r = v).
Proof.
  induction df as [| r df IH]; intros Hnd.
  - split; [discriminate | intros (r & [] & _)].
  - inversion Hnd as [| ? ? Hr Hnd']; subst. rewrite entry_cons.
    destruct (Z.eqb_spec (ratings.UserID r) u) as [Hu | Hu];
      destruct (Z.eqb_spec (ratings.MovieID r) m) as [Hm | Hm]; simpl;
      try skip_other_row.
    split.
    + intros H. inversion H. exists r. repeat split; [now left |].
      unfold entry_key. now rewrite Hu, Hm.
    + intros (r' & [<- | Hin] & Hk & Hv); [now rewrite Hv |].
      exfalso. apply Hr. unfold entry_key at 1. rewrite Hu, Hm, <- Hk.
      now apply in_map.
Qed.

(** *** The sum of a user's row *)

Lemma Zsum_add {X : Type} (f g : X -> Z) (l : list X) :
  Zsum (map (fun x => f x + g x) l) = Zsum (map f l) + Zsum (map g l).
Proof. induction l as [| x l IH]; simpl; lia. Qed.

Lemma Zsum_ext {X : Type} (f g : X -> Z) (l : list X) :
  (forall x, In x l -> f x = g x) -> Zsum (map f l) = Zsum (map g l).
Proof.
  induction l as [| x l IH]; simpl; intros H; [reflexivity |].
  rewrite (H x) by now left. rewrite IH; [reflexivity |].
  intros y Hy. apply H. now right.
Qed.

Lemma Zsum_zero {X : Type} (l : list X) : Zsum (map (fun _ => 0) l) = 0.
Proof. induction l as [| x l IH]; simpl; lia. Qed.

Lemma Zsum_indicator (k v : Z) (l : list Z) :
  List.NoDup l -> In k l ->
  Zsum (map (fun m => if k =? m then v else 0) l) = v.
Proof.
  induction 1 as [| x l Hx Hnd IH]; simpl; [tauto |].
  intros [-> | Hin].
  - rewrite Z.eqb_refl.
    rewrite (Zsum_ext _ (fun _ => 0)), Zsum_zero; [lia |].
    intros y Hy. destruct (Z.eqb_spec k y); [subst; contradiction | reflexivity].
  - destruct (Z.eqb_spec k x); [subst; contradiction |].
    rewrite IH by exact Hin. lia.
Qed.

(** A user's row of the pivot, unrated movies counted as 0, sums to the
    sum of the user's ratings. *)
Lemma row_sum (df : list ratings.row) (u : Z) (cols : list Z) :
  List.NoDup cols ->
  (forall r, In r df -> In (ratings.MovieID r) cols) ->
  List.NoDup (map entry_key df) ->
  Zsum (map (entry0 df u) cols) = Zsum (Spec.ratings_of_user u df).
Proof.
  intros Hcols. unfold Spec.ratings_of_user.
  induction df as [| r df IH]; intros Hin Hnd; simpl.
  - apply Zsum_zero.
  - inversion Hnd as [| ? ? Hr Hnd']; subst.
    assert (Hin' : forall r', In r' df -> In (ratings.MovieID r') cols)
      by (intros; apply Hin; now right).
    destruct (Z.eqb_spec (ratings.UserID r) u) as [Hu | Hu].
    + simpl. rewrite <- (IH Hin' Hnd').
      rewrite <- (Zsum_indicator (ratings.MovieID r) (ratings.Rating r) cols
                    Hcols (Hin r (or_introl eq_refl))) at 1.
      rewrite <- Zsum_add. apply Zsum_ext. intros m _.
      unfold entry0. rewrite entry_cons.
      destruct (Z.eqb_spec (ratings.UserID r) u); [| contradiction].
      destruct (Z.eqb_spec (ratings.MovieID r) m) as [Hm | Hm]; simpl.
      * rewrite entry_None; [lia |]. unfold entry_key in Hr.
        now rewrite <- Hu, <- Hm.
      * lia.
    + rewrite <- (IH Hin' Hnd'). apply Zsum_ext. intros m _.
      unfold entry0. rewrite entry_cons.
      destruct (Z.eqb_spec (ratings.UserID r) u); [contradiction |].
      reflexivity.
Qed.

Lemma Qsum_inject_Z {X : Type} (f : X -> Z) (l : list X) :
  (Qsum (map (fun x => inject_Z (f x)) l) == inject_Z (Zsum (map f l)))%Q.
Proof.
  induction l as [| x l IH]; simpl; [reflexivity |].
  rewrite IH, inject_Z_plus. reflexivity.
Qed.

Lemma fillna0_entry (df : list ratings.row) (u m : Z) :
  fillna0 (entry df u m) = inject_Z (entry0 df u m).
Proof. unfold fillna0, entry0. now destruct (entry df u m). Qed.

End RatingsMatrix.

Section UserMeans.
Import MovieLens.

Lemma R_df_Some (ratings_df : list ratings.row) (p : Pivot Q) :
  R_df ratings_df = Some p ->
  List.NoDup (map entry_key ratings_df) /\
  p = {| index := sorted_unique (map ratings.UserID ratings_df);
         pcolumns := sorted_unique (map ratings.MovieID ratings_df);
         cells := map (fun u => map (fun m => inject_Z (entry0 ratings_df u m))
                                    (sorted_unique (map ratings.MovieID ratings_df)))
                      (sorted_unique (map ratings.UserID ratings_df)) |}.
Proof.
  unfold R_df, pivot.
  destruct (has_duplicate_entries ratings_df) eqn:E; [discriminate |].
  simpl. intros H. inversion H. split; [now apply has_duplicate_entries_false |].
  f_equal. rewrite List.map_map. apply map_ext. intros u.
  rewrite List.map_map. apply map_ext. intros m. apply fillna0_entry.
Qed.

(** C4 (as amended).  The notebook has no mean of all observed ratings:
    [user_ratings_mean] holds one mean per user, taken over every column
    of [R], so that each movie the user has not rated counts as a rating
    of 0: the mean of a user is the sum of the user's ratings, an integer,
    divided by the number of distinct movies of the table (the notebook
    holds this one quotient as a double).  The vector is computed once;
    the one that is subtracted from [R] is the one that is added back to
    the predictions. *)
Theorem user_ratings_mean_over_all_movies
    (ratings_df : list ratings.row) (p : Pivot Q) :
  R_df ratings_df = Some p ->
  pcolumns p = sorted_unique (map ratings.MovieID ratings_df) /\
  (forall i u, nth_error (index p) i = Some u ->
     exists mu, nth_error (user_ratings_mean p) i = Some mu /\
       (mu == inject_Z (Zsum (Spec.ratings_of_user u ratings_df))
              / inject_Z (Z.of_nat (List.length (pcolumns p))))%Q) /\
  R_demeaned p = sub_column_vector (R p) (user_ratings_mean p) /\
  (forall (seed : Type)
          (svds : seed -> matrix -> nat -> option (matrix * list Q * matrix))
          (s : seed) (U Vt : matrix) (sigma : list Q),
      svds s (R_demeaned p) 100%nat = Some (U, sigma, Vt) ->
      all_user_predicted_ratings seed svds s p =
      Some (add_column_vector (np_dot (np_dot U (np_diag sigma)) Vt)
              (user_ratings_mean p))).
Proof.
  intros Hp. destruct (R_df_Some _ _ Hp) as [Hnd ->]. simpl.
  split; [reflexivity |]. split; [| split; [reflexivity |]].
  2: { intros seed svds s U Vt sigma Hsvds.
       unfold all_user_predicted_ratings. now rewrite Hsvds. }
  intros i u Hi. unfold user_ratings_mean, np_mean_axis1, R. simpl.
  set (cols := sorted_unique (map ratings.MovieID ratings_df)) in *.
  eexists. split.
  - rewrite List.map_map. apply (map_nth_error _ _ _ Hi).
  - rewrite length_map, Qsum_inject_Z.
    rewrite row_sum; try assumption.
    + reflexivity.
    + apply sorted_unique_NoDup.
    + intros r Hr. apply sorted_unique_In. now apply in_map.
Qed.

Lemma user_ratings_mean_over_all_movies_witness :
  exists p, R_df Examples.ratings_df = Some p /\
    exists mu, nth_error (user_ratings_mean p) 0 = Some mu /\
      (mu == inject_Z (Zsum (Spec.ratings_of_user 1 Examples.ratings_df))
             / inject_Z (Z.of_nat (List.length (pcolumns p))))%Q.
Proof.
  eexists. split; [reflexivity |].
  apply (proj1 (proj2 (user_ratings_mean_over_all_movies
                         Examples.ratings_df _ eq_refl)) 0%nat 1).
  reflexivity.
Defined.

(** C4 as stated fails: the two observed ratings, 5 and 4, have mean 9/2;
    user 1 rated one of the two movies with 5 and gets the mean 5/2, user 2
    gets 4/2. *)
Lemma user_ratings_mean_counts_unrated_as_zero :
  exists p, R_df Examples.ratings_df = Some p /\
    user_ratings_mean p = [5 # 2; 4 # 2]%Q /\
    (Spec.GlobalBias Examples.ratings_df == 9 # 2)%Q /\
    Spec.ratings_of_user 1 Examples.ratings_df = [5] /\
    Forall (fun mu => ~ (mu == Spec.GlobalBias Examples.ratings_df)%Q)
           (user_ratings_mean p).
Proof.
  eexists. split; [reflexivity |].
  split; [reflexivity |]. split; [reflexivity |]. split; [reflexivity |].
  repeat constructor; discriminate.
Qed.

(** C5 (as amended).  Every line of the ratings file becomes a row of
    [ratings_df] with the rating it carries, whatever its value: the
    minimum 1 and the maximum 5 are stored, and so is any value outside
    the range.  The notebooks have no check of the range and no
    InvalidRatingError. *)
Theorem ratings_df_keeps_every_rating
    (ratings_list : list (Z * Z * Z * Z)) (u m r t : Z) :
  ratings_df (ratings_list ++ [(u, m, r, t)])
  = ratings_df ratings_list ++ [ratings.mk u m r t].
Proof. unfold ratings_df. now rewrite List.map_app. Qed.

(** C5 as stated fails: a line with the rating 6, one above the maximum,
    is stored, and the rating is in the matrix [R]. *)
Lemma rating_out_of_range_is_ingested :
  let line := (1, 1193, 6, 978300760) in
  Spec.valid_rating 6 = false /\
  ratings_df [line] = [ratings.mk 1 1193 6 978300760] /\
  ratings_df [line] <> ratings_df [] /\
  option_map R (R_df (ratings_df [line])) = Some [[6%Q]].
Proof.
  cbv zeta. repeat split; try reflexivity. discriminate.
Qed.

End UserMeans.

(** ** The pivot does not depend on the order of the rows *)

Section PivotOrder.
Import MovieLens.

Lemma sorted_lt_ext (l1 l2 : list Z) :
  StronglySorted Z.lt l1 -> StronglySorted Z.lt l2 ->
  (forall k, In k l1 <-> In k l2) -> l1 = l2.
Proof.
  intros H1. revert l2.
  induction H1 as [| a l1 H1 IH Ha]; intros l2 H2 Hext.
  - destruct l2 as [| b l2]; [reflexivity |].
    exfalso. apply (Hext b). now left.
  - destruct H2 as [| b l2 H2 Hb].
    + exfalso. apply (Hext a). now left.
    + rewrite List.Forall_forall in Ha, Hb.
      assert (Hab : a = b).
      { destruct (proj1 (Hext a) (or_introl eq_refl)) as [Hba | Hin];
          [now symmetry |].
        destruct (proj2 (Hext b) (or_introl eq_refl)) as [Hab' | Hin'];
          [exact Hab' |].
        specialize (Ha b Hin'). specialize (Hb a Hin). lia. }
      subst b. f_equal. apply IH; [exact H2 |].
      intros k. split; intros Hk.
      * destruct (proj1 (Hext k) (or_intror Hk)) as [Hak | Hin]; [| exact Hin].
        specialize (Ha k Hk). lia.
      * destruct (proj2 (Hext k) (or_intror Hk)) as [Hak | Hin]; [| exact Hin].
        specialize (Hb k Hk). lia.
Qed.

(** The labels of a pivot do not depend on the order of the rows. *)
Lemma sorted_unique_Permutation (l1 l2 : list Z) :
  Permutation l1 l2 -> sorted_unique l1 = sorted_unique l2.
Proof.
  intros Hp. apply sorted_lt_ext; try apply sorted_unique_sorted.
  intros k. rewrite !sorted_unique_In.
  split; apply Permutation_in; [exact Hp | now symmetry].
Qed.

Lemma entry_Permutation (df1 df2 : list ratings.row) (u m : Z) :
  Permutation df1 df2 -> List.NoDup (map entry_key df1) ->
  entry df1 u m = entry df2 u m.
Proof.
  intros Hp Hnd1.
  assert (Hnd2 : List.NoDup (map entry_key df2))
    by (eapply Permutation_NoDup; [apply Permutation_map; exact Hp | exact Hnd1]).
  assert (Hiff : forall v, entry df1 u m = Some v <-> entry df2 u m = Some v).
  { intros v. rewrite (entry_Some df1 u m v Hnd1), (entry_Some df2 u m v Hnd2).
    split; intros (r & Hin & Hk); exists r; (split; [| exact Hk]);
      eapply Permutation_in; try exact Hin; [exact Hp | now symmetry]. }
  destruct (entry df1 u m) as [v |] eqn:E1.
  - symmetry. now apply Hiff.
  - destruct (entry df2 u m) as [v |] eqn:E2; [| reflexivity].
    exfalso. pose proof (proj2 (Hiff v) eq_refl) as H. discriminate H.
Qed.

Lemma pivot_Permutation (df1 df2 : list ratings.row) :
  Permutation df1 df2 -> pivot df1 = pivot df2.
Proof.
  intros Hp. unfold pivot.
  destruct (has_duplicate_entries df1) eqn:E1;
    destruct (has_duplicate_entries df2) eqn:E2.
  - reflexivity.
  - apply has_duplicate_entries_false in E2.
    assert (E1' : has_duplicate_entries df1 = false).
    { apply has_duplicate_entries_false. eapply Permutation_NoDup; [| exact E2].
      apply Permutation_map. now symmetry. }
    congruence.
  - apply has_duplicate_entries_false in E1.
    assert (E2' : has_duplicate_entries df2 = false).
    { apply has_duplicate_entries_false. eapply Permutation_NoDup; [| exact E1].
      now apply Permutation_map. }
    congruence.
  - apply has_duplicate_entries_false in E1.
    rewrite (sorted_unique_Permutation _ _
               (Permutation_map ratings.UserID Hp)).
    rewrite (sorted_unique_Permutation _ _
               (Permutation_map ratings.MovieID Hp)).
    do 2 f_equal. apply map_ext. intros u. apply map_ext. intros m.
    now apply entry_Permutation.
Qed.

(** X22.  The matrix [R_df] does not depend on the order of the rows of
    [ratings_df]: the pivot sorts its row and column labels, and a table
    without a repeated (UserID, MovieID) pair has one rating per cell.  A
    table with a repeated pair raises in every order. *)
Theorem R_df_ignores_row_order (df1 df2 : list ratings.row) :
  Permutation df1 df2 -> R_df df1 = R_df df2.
Proof.
  intros Hp. unfold R_df. now rewrite (pivot_Permutation df1 df2 Hp).
Qed.

Lemma R_df_ignores_row_order_witness :
  R_df Examples.ratings_df = R_df (rev Examples.ratings_df).
Proof.
  apply (R_df_ignores_row_order Examples.ratings_df (rev Examples.ratings_df)).
  apply Permutation_rev.
Defined.

End PivotOrder.

(** ** The factorization core *)

Section CoreFacts.
Import Core.

(** C2.  When the user or the item has no entry in the trained model, the
    default mode of [predict] returns GlobalBias plus the bias of the side
    that has an entry, GlobalBias alone when neither has one, and the
    strict mode raises UnknownEntityError. *)
Theorem predict_cold_start (m : TrainedModel) (user_id item_id : Z) :
  UserFactors m !! user_id = None \/ ItemFactors m !! item_id = None ->
  predict true m user_id item_id = inl UnknownEntityError /\
  predict false m user_id item_id =
    inr (match UserFactors m !! user_id, ItemFactors m !! item_id with
         | None, None => GlobalBias m
         | Some pu, None => GlobalBias m + bias pu
         | None, Some qi => GlobalBias m + bias qi
         | Some pu, Some qi => predicted m pu qi
         end)%Q.
Proof.
  unfold predict.
  destruct (UserFactors m !! user_id) as [pu |],
           (ItemFactors m !! item_id) as [qi |];
    intros [H | H]; try discriminate H; split; reflexivity.
Qed.

Lemma predict_cold_start_witness :
  predict true example_model 1 99 = inl UnknownEntityError /\
  predict false example_model 1 99 = inr ((7 # 2) + (1 # 4))%Q.
Proof.
  apply (predict_cold_start example_model 1 99).
  right. reflexivity.
Defined.

Lemma nth_error_factor_update (lr error reg : Q) (a b : list Q) (k : nat) (x y : Q) :
  nth_error a k = Some x -> nth_error b k = Some y ->
  nth_error (factor_update lr error reg a b) k
  = Some (x + lr * (error * y - reg * x))%Q.
Proof.
  unfold factor_update. revert b k.
  induction a as [| a0 a IH]; intros [| b0 b] [| k]; simpl; try discriminate.
  - intros H1 H2. inversion H1. inversion H2. reflexivity.
  - apply IH.
Qed.

(** C8.  One step of the training on a rating (u, i, r) leaves, in every
    coordinate, the user's factor updated with the item's factor as it was
    before the step, and the item's factor updated with the user's factor
    as it was before the step; the error is the one of the model before
    the step. *)
Theorem sgd_step_uses_pre_update_factors
    (m : TrainedModel) (u i : Z) (r : Q) (pu qi : Factors) :
  UserFactors m !! u = Some pu ->
  ItemFactors m !! i = Some qi ->
  let lr := learningRate m in
  let reg := regularization m in
  let error := (r - predicted m pu qi)%Q in
  exists pu' qi',
    UserFactors (sgd_step m u i r) !! u = Some pu' /\
    ItemFactors (sgd_step m u i r) !! i = Some qi' /\
    forall k x y,
      nth_error (vector pu) k = Some x ->
      nth_error (vector qi) k = Some y ->
      nth_error (vector pu') k = Some (x + lr * (error * y - reg * x))%Q /\
      nth_error (vector qi') k = Some (y + lr * (error * x - reg * y))%Q.
Proof.
  intros Hu Hi. cbv zeta. unfold sgd_step. rewrite Hu, Hi. simpl.
  eexists _, _. rewrite !lookup_insert_eq.
  split; [reflexivity |]. split; [reflexivity |].
  intros k x y Hx Hy. simpl.
  split; now apply nth_error_factor_update.
Qed.

Lemma sgd_step_uses_pre_update_factors_witness :
  let error := ((4 # 1) - predicted example_model
                            {| vector := [1 # 10; 2 # 10]; bias := 1 # 4 |}
                            {| vector := [3 # 10; -1 # 10]; bias := -1 # 2 |})%Q in
  exists pu' qi',
    UserFactors (sgd_step example_model 1 10 (4 # 1)) !! 1 = Some pu' /\
    ItemFactors (sgd_step example_model 1 10 (4 # 1)) !! 10 = Some qi' /\
    forall k x y,
      nth_error [1 # 10; 2 # 10]%Q k = Some x ->
      nth_error [3 # 10; -1 # 10]%Q k = Some y ->
      nth_error (vector pu') k
        = Some (x + (1 # 100) * (error * y - (2 # 100) * x))%Q /\
      nth_error (vector qi') k
        = Some (y + (1 # 100) * (error * x - (2 # 100) * y))%Q.
Proof.
  apply (sgd_step_uses_pre_update_factors example_model 1 10 (4 # 1)
           {| vector := [1 # 10; 2 # 10]; bias := 1 # 4 |}
           {| vector := [3 # 10; -1 # 10]; bias := -1 # 2 |}).
  - reflexivity.
  - reflexivity.
Defined.

End CoreFacts.

(** ** The data cleaning of the Netflix notebook *)

Section CleaningFacts.
Import Cleaning.

Lemma isnull_index_lower (start : Z) (l : list (option Q)) :
  Forall (fun i => start <= i) (isnull_index start l).
Proof.
  revert start. induction l as [| [x |] l IH]; intros start; simpl.
  - constructor.
  - eapply List.Forall_impl; [| apply IH]. intros; simpl in *; lia.
  - constructor; [lia |].
    eapply List.Forall_impl; [| apply IH]. intros; simpl in *; lia.
Qed.

Lemma repeat_snoc (k : Z) (n : nat) : repeat k (S n) = repeat k n ++ [k].
Proof. induction n as [| n IH]; simpl; [reflexivity |]. now rewrite <- IH. Qed.

Lemma np_full_nonneg (n v : Z) :
  0 <= n -> np_full n v = Some (repeat v (Z.to_nat n)).
Proof.
  intros Hn. unfold np_full. destruct (Z.ltb_spec n 0); [lia | reflexivity].
Qed.

(** The loop and the last record, started after a header at label [j]
    followed by [g] rating rows: the rating rows of the rest are numbered by
    the headers met so far. *)
Lemma fill_after_header (l : list (option Q)) (j g k : Z) (acc : list Z) :
  0 <= g ->
  let index := isnull_index (j + 1 + g) l in
  match fill_loop (combine index (removelast (j :: index))) acc k with
  | Some st =>
      last_record (j + 1 + g + Z.of_nat (List.length l)) (j :: index) st
  | None => None
  end = Some (acc ++ repeat k (Z.to_nat g) ++ ids_from k l).
Proof.
  cbv zeta. revert j g k acc. induction l as [| [x |] l IH]; intros j g k acc Hg.
  - cbn [isnull_index combine fill_loop last_record List.last fst snd
         ids_from List.length].
    rewrite np_full_nonneg by lia. cbn [option_map].
    replace (j + 1 + g + Z.of_nat 0 - j - 1) with g by lia.
    now rewrite List.app_nil_r.
  - cbn [isnull_index ids_from].
    specialize (IH j (g + 1) k acc ltac:(lia)).
    replace (j + 1 + (g + 1)) with (j + 1 + g + 1) in IH by lia.
    replace (j + 1 + g + Z.of_nat (List.length (Some x :: l)))
      with (j + 1 + g + 1 + Z.of_nat (List.length l))
      by (cbn [List.length]; lia).
    rewrite IH. do 2 f_equal.
    replace (Z.to_nat (g + 1)) with (S (Z.to_nat g)) by lia.
    rewrite repeat_snoc, <- List.app_assoc. reflexivity.
  - cbn [isnull_index ids_from].
    set (j' := j + 1 + g).
    change (removelast (j :: j' :: isnull_index (j' + 1) l))
      with (j :: removelast (j' :: isnull_index (j' + 1) l)).
    cbn [combine fill_loop].
    rewrite np_full_nonneg by lia.
    replace (j' - j - 1) with g by lia.
    specialize (IH j' 0 (k + 1) (acc ++ repeat k (Z.to_nat g)) ltac:(lia)).
    replace (j' + 1 + 0) with (j' + 1) in IH by lia.
    replace (j' + Z.of_nat (List.length (@None Q :: l)))
      with (j' + 1 + Z.of_nat (List.length l))
      by (cbn [List.length]; lia).
    assert (Hlast : forall st,
      last_record (j' + 1 + Z.of_nat (List.length l))
        (j :: j' :: isnull_index (j' + 1) l) st
      = last_record (j' + 1 + Z.of_nat (List.length l))
          (j' :: isnull_index (j' + 1) l) st) by reflexivity.
    destruct (fill_loop _ _ _) as [st |] eqn:E.
    + rewrite Hlast, IH. cbn [Z.to_nat repeat app].
      now rewrite <- List.app_assoc.
    + discriminate IH.
Qed.

(** [movie_np] of a column that starts with [g] rating rows. *)
Lemma movie_np_after (pre l : list (option Q)) :
  Forall (fun o => o <> None) pre ->
  movie_np (pre ++ None :: l) = Some (ids_from 1 l).
Proof.
  intros Hpre. unfold movie_np.
  assert (Hidx : forall s, isnull_index s (pre ++ None :: l)
            = (s + Z.of_nat (List.length pre))
              :: isnull_index (s + Z.of_nat (List.length pre) + 1) l).
  { induction Hpre as [| [x |] pre Hx Hpre IH]; intros s.
    - cbn [app isnull_index List.length]. change (Z.of_nat 0) with 0.
      now rewrite Z.add_0_r.
    - cbn [app isnull_index List.length]. rewrite IH.
      now replace (s + 1 + Z.of_nat (List.length pre))
        with (s + Z.of_nat (S (List.length pre))) by lia.
    - congruence. }
  rewrite Hidx. simpl tl. set (j := 0 + Z.of_nat (List.length pre)).
  pose proof (fill_after_header l j 0 1 [] ltac:(lia)) as H. cbv zeta in H.
  replace (j + 1 + 0) with (j + 1) in H by lia.
  replace (Z.of_nat (List.length (pre ++ None :: l)))
    with (j + 1 + Z.of_nat (List.length l))
    by (rewrite length_app; simpl List.length; lia).
  exact H.
Qed.

Lemma movie_np_no_header (l : list (option Q)) :
  Forall (fun o => o <> None) l -> movie_np l = None.
Proof.
  intros Hl. unfold movie_np.
  assert (Hidx : forall s, isnull_index s l = []).
  { induction Hl as [| [x |] l Hx Hl IH]; intros s; simpl; auto. congruence. }
  rewrite Hidx. reflexivity.
Qed.

Lemma ids_from_length (k k' : Z) (l : list (option Q)) :
  List.length (ids_from k l) = List.length (ids_from k' l).
Proof.
  revert k k'. induction l as [| [x |] l IH]; intros k k'; cbn [ids_from List.length].
  - reflexivity.
  - now rewrite (IH k k').
  - apply IH.
Qed.

Lemma ids_from_length_app (k : Z) (l1 l2 : list (option Q)) :
  List.length (ids_from k (l1 ++ None :: l2))
  = (List.length (ids_from k l1) + List.length (ids_from k l2))%nat.
Proof.
  revert k. induction l1 as [| [x |] l1 IH]; intros k;
    cbn [app ids_from List.length].
  - apply ids_from_length.
  - now rewrite IH.
  - rewrite IH. now rewrite (ids_from_length (k + 1) k l2).
Qed.

Lemma notnull_rows_length {C : Type} (k : Z) (df : list (C * option Q)) :
  List.length (notnull_rows df) = List.length (ids_from k (map snd df)).
Proof.
  revert k. induction df as [| [c [x |]] df IH]; intros k; simpl; auto.
Qed.

Lemma combine_numbered {C : Type} (k : Z) (df : list (C * option Q)) :
  combine (notnull_rows df) (ids_from k (map snd df)) = numbered k df.
Proof.
  revert k. induction df as [| [c [x |]] df IH]; intros k; simpl; auto.
  now rewrite IH.
Qed.

Lemma split_at_header (l : list (option Q)) :
  Forall (fun o => o <> None) l \/
  exists pre l', l = pre ++ None :: l' /\ Forall (fun o => o <> None) pre.
Proof.
  induction l as [| [x |] l IH].
  - left. constructor.
  - destruct IH as [H | (pre & l' & -> & H)].
    + left. constructor; [discriminate | exact H].
    + right. exists (Some x :: pre), l'. split; [reflexivity |].
      constructor; [discriminate | exact H].
  - right. exists [], l. split; [reflexivity | constructor].
Qed.

(** X1.  On a raw table that starts with a movie header, the cleaning
    returns the rating rows in their order, and the Movie_Id of each is the
    number of header rows above it: the ids are 1, 2, ... in the order of
    the headers, whatever the headers' text. *)
Theorem cleaned_numbers_by_headers (C : Type) (c : C)
    (df : list (C * option Q)) :
  cleaned ((c, None) :: df) = Some (numbered 1 df).
Proof.
  unfold cleaned. change (map snd ((c, None) :: df)) with ([] ++ None :: map snd df).
  rewrite movie_np_after by constructor.
  unfold set_Movie_Id.
  change (notnull_rows ((c, None) :: df)) with (notnull_rows df).
  rewrite (notnull_rows_length 1), Nat.eqb_refl.
  now rewrite combine_numbered.
Qed.

(** X2.  The cleaning raises on every other table: on one without a
    header row (IndexError, also for the empty table), and on one whose
    first row is a rating, since the rating rows above the first header get
    no movie id and the column is too short for the table (ValueError). *)
Theorem cleaned_raises_without_leading_header (C : Type) :
  cleaned (@nil (C * option Q)) = None /\
  forall (c : C) (x : Q) (df : list (C * option Q)),
    cleaned ((c, Some x) :: df) = None.
Proof.
  split; [reflexivity |]. intros c x df. unfold cleaned.
  destruct (split_at_header (map snd ((c, Some x) :: df)))
    as [Hall | (pre & l' & Heq & Hpre)].
  - now rewrite movie_np_no_header.
  - rewrite Heq, movie_np_after by exact Hpre.
    unfold set_Movie_Id.
    rewrite (notnull_rows_length 1), Heq, ids_from_length_app.
    destruct pre as [| [y |] pre].
    + discriminate Heq.
    + cbn [ids_from List.length].
      destruct (Nat.eqb_spec (List.length (ids_from 1 l'))
                  (S (List.length (ids_from 1 pre)) + List.length (ids_from 1 l')));
        [lia | reflexivity].
    + inversion Hpre; congruence.
Qed.

End CleaningFacts.

(** ** More on the ratings matrix of the MovieLens notebook *)

Section MatrixFacts.
Import MovieLens.

Lemma nth_error_map_Some {X Y : Type} (f : X -> Y) (l : list X) (i : nat) (y : Y) :
  nth_error (map f l) i = Some y -> exists x, nth_error l i = Some x /\ y = f x.
Proof.
  rewrite nth_error_map. destruct (nth_error l i) as [x |]; simpl.
  - intros H. inversion H. eauto.
  - discriminate.
Qed.

(** X4.  The row labels of [R_df] are the UserIDs of [ratings_df], each
    once and in ascending order, and its column labels the MovieIDs, each
    once and in ascending order.  The matrix [R] has one row per row label
    and one cell per column label in each row, and the cell of a user and
    a movie is the rating of the row of [ratings_df] for that pair, and 0
    when there is no such row. *)
Theorem R_cell_is_rating_or_zero
    (ratings_df : list ratings.row) (p : Pivot Q) :
  R_df ratings_df = Some p ->
  (StronglySorted Z.lt (index p) /\
   forall u, In u (index p) <->
             exists r, In r ratings_df /\ ratings.UserID r = u) /\
  (StronglySorted Z.lt (pcolumns p) /\
   forall m, In m (pcolumns p) <->
             exists r, In r ratings_df /\ ratings.MovieID r = m) /\
  List.length (R p) = List.length (index p) /\
  Forall (fun row => List.length row = List.length (pcolumns p)) (R p) /\
  forall i j u m,
    nth_error (index p) i = Some u ->
    nth_error (pcolumns p) j = Some m ->
    exists row x,
      nth_error (R p) i = Some row /\
      List.length row = List.length (pcolumns p) /\
      nth_error row j = Some x /\
      (forall r, In r ratings_df -> ratings.UserID r = u ->
                 ratings.MovieID r = m -> x = inject_Z (ratings.Rating r)) /\
      ((forall r, In r ratings_df -> ratings.UserID r = u ->
                  ratings.MovieID r <> m) -> x = 0%Q).
Proof.
  intros Hp. destruct (R_df_Some _ _ Hp) as [Hnd ->]. unfold R. cbn [cells index pcolumns].
  assert (Hlabels : forall (f : ratings.row -> Z),
            StronglySorted Z.lt (sorted_unique (map f ratings_df)) /\
            forall k, In k (sorted_unique (map f ratings_df)) <->
                      exists r, In r ratings_df /\ f r = k).
  { intros f. split; [apply sorted_unique_sorted |].
    intros k. rewrite sorted_unique_In, in_map_iff.
    split; intros (r & H1 & H2); exists r; auto. }
  split; [apply Hlabels |]. split; [apply Hlabels |].
  split; [now rewrite length_map |].
  split.
  { apply List.Forall_forall. intros row Hrow. apply in_map_iff in Hrow.
    destruct Hrow as (u & <- & _). now rewrite length_map. }
  intros i j u m Hi Hj.
  eexists _, _. split; [apply (map_nth_error _ _ _ Hi) |].
  split; [now rewrite length_map |].
  split; [apply (map_nth_error _ _ _ Hj) |]. split.
  - intros r Hr Hu Hm. f_equal. unfold entry0.
    assert (H : entry ratings_df u m = Some (ratings.Rating r)).
    { apply entry_Some; [exact Hnd |]. exists r.
      repeat split; [exact Hr |]. unfold entry_key. now rewrite Hu, Hm. }
    now rewrite H.
  - intros Hnone. unfold entry0. rewrite entry_None; [reflexivity |].
    intros Hin. apply in_map_iff in Hin. destruct Hin as (r & Hk & Hr).
    inversion Hk. now apply (Hnone r).
Qed.

Lemma R_cell_is_rating_or_zero_witness :
  exists row x,
    nth_error [[0; 5]; [4; 0]]%Q 0 = Some row /\
    List.length row = 2%nat /\
    nth_error row 1 = Some x /\
    (forall r, In r Examples.ratings_df -> ratings.UserID r = 1 ->
               ratings.MovieID r = 3 -> x = inject_Z (ratings.Rating r)) /\
    ((forall r, In r Examples.ratings_df -> ratings.UserID r = 1 ->
                ratings.MovieID r <> 3) -> x = 0%Q).
Proof.
  apply (proj2 (proj2 (proj2 (proj2
           (R_cell_is_rating_or_zero Examples.ratings_df _ eq_refl))))
           0%nat 1%nat 1 3); reflexivity.
Defined.

Lemma sorted_unique_range (l : list Z) (n : nat) :
  (forall u, In u l <-> 1 <= u <= Z.of_nat n) ->
  sorted_unique l = map Z.of_nat (seq 1 n).
Proof.
  intros Hl. apply sorted_lt_ext.
  - apply sorted_unique_sorted.
  - clear Hl. generalize 1%nat as s. induction n as [| n IH]; intros s; simpl.
    + constructor.
    + constructor; [apply IH |].
      apply List.Forall_forall. intros k Hk. apply in_map_iff in Hk.
      destruct Hk as (k' & <- & Hk'). apply in_seq in Hk'. lia.
  - intros k. rewrite sorted_unique_In, Hl, in_map_iff. split.
    + intros Hk. exists (Z.to_nat k). split; [lia |]. apply in_seq. lia.
    + intros (k' & <- & Hk'). apply in_seq in Hk'. lia.
Qed.

(** X5.  When the UserIDs of the table are exactly 1, ..., n, the row of
    [R] (and of any frame with the same row order) at position
    [userID - 1], the one [recommend_movies] reads, is the row of the user
    [userID] ("UserID starts at 1, not 0"). *)
Theorem row_number_is_user_row
    (ratings_df : list ratings.row) (p : Pivot Q) (n : nat) (userID : Z) :
  R_df ratings_df = Some p ->
  (forall u, In u (map ratings.UserID ratings_df) <-> 1 <= u <= Z.of_nat n) ->
  1 <= userID <= Z.of_nat n ->
  List.length (index p) = n /\
  nth_error (index p) (Z.to_nat (userID - 1)) = Some userID.
Proof.
  intros Hp Hids Hu. destruct (R_df_Some _ _ Hp) as [_ ->]. cbn [index].
  rewrite (sorted_unique_range _ n Hids).
  split; [now rewrite length_map, length_seq |].
  rewrite nth_error_map, nth_error_seq.
  destruct (Nat.ltb_spec (Z.to_nat (userID - 1)) n); [| lia].
  simpl. f_equal. lia.
Qed.

Lemma row_number_is_user_row_witness :
  List.length [1; 2] = 2%nat /\ nth_error [1; 2] (Z.to_nat (2 - 1)) = Some 2.
Proof.
  apply (row_number_is_user_row Examples.ratings_df
           {| index := [1; 2]; pcolumns := [1; 3]; cells := [[0; 5]; [4; 0]]%Q |}
           2%nat 2).
  - reflexivity.
  - intros u. simpl. lia.
  - lia.
Defined.

End MatrixFacts.

(** ** More on [recommend_movies] and on the Netflix listing *)

Section RecommendFacts.
Import MovieLens.

Lemma StronglySorted_weaken {X : Type} (R R' : X -> X -> Prop) (l : list X) :
  (forall a b, R a b -> R' a b) -> StronglySorted R l -> StronglySorted R' l.
Proof.
  intros HR. induction 1 as [| x l Hs IH Hx]; constructor; [exact IH |].
  eapply List.Forall_impl; [| exact Hx]. intros; now apply HR.
Qed.

Lemma rating_key_ge (a b : user_full_row) :
  key_ge rating_key a b ->
  ratings.Rating (fst b) <= ratings.Rating (fst a).
Proof. unfold key_ge, rating_key. now rewrite <- Zle_Qle. Qed.

(** X6.  [user_full], the first result of [recommend_movies], lists the
    ratings of the user from the highest to the lowest; each row carries
    the title of its movie when [movies_df] has the movie, and a missing
    title otherwise; and when the MovieIDs of [movies_df] are distinct it
    has exactly one row per rating of the user, so that the printed number
    of rated movies is the number of the user's ratings. *)
Theorem user_full_is_the_users_ratings (userID : Z)
    (movies_df : list movies.row) (df : list ratings.row) :
  let uf := user_full userID movies_df df in
  StronglySorted
    (fun a b => ratings.Rating (fst b) <= ratings.Rating (fst a)) uf /\
  (forall x, In x uf ->
     In (fst x) df /\ ratings.UserID (fst x) = userID /\
     match snd x with
     | Some m => In m movies_df /\ movies.MovieID m = ratings.MovieID (fst x)
     | None => forall m, In m movies_df ->
                         movies.MovieID m <> ratings.MovieID (fst x)
     end) /\
  (List.NoDup (map movies.MovieID movies_df) ->
   Permutation (map fst uf) (user_data userID df) /\
   List.length uf
   = List.length (List.filter (fun r => ratings.UserID r =? userID) df)).
Proof.
  cbv zeta. unfold user_full. split; [| split].
  - eapply StronglySorted_weaken; [apply rating_key_ge |].
    apply sort_values_desc_StronglySorted.
  - intros x Hx. apply In_sort_values_desc, merge_left_In in Hx.
    destruct Hx as [Hl Hr]. apply user_data_In in Hl.
    destruct Hl as [Hl Hu]. repeat split; assumption.
  - intros Hnd.
    assert (Hperm : Permutation
              (map fst (sort_values_desc rating_key
                 (merge_left ratings.MovieID movies.MovieID
                    (user_data userID df) movies_df)))
              (user_data userID df)).
    { rewrite sort_values_desc_Permutation.
      now rewrite merge_left_unique_keys. }
    split; [exact Hperm |].
    apply Permutation_length in Hperm. now rewrite length_map in Hperm.
Qed.

Lemma user_full_is_the_users_ratings_witness :
  Permutation
    (map fst (user_full 1 Examples.movies_df Examples.ratings_df))
    (user_data 1 Examples.ratings_df) /\
  List.length (user_full 1 Examples.movies_df Examples.ratings_df)
  = List.length (List.filter (fun r => ratings.UserID r =? 1) Examples.ratings_df).
Proof.
  apply (proj2 (proj2 (user_full_is_the_users_ratings 1
                         Examples.movies_df Examples.ratings_df))).
  simpl. repeat constructor; simpl; intuition discriminate.
Defined.

(** X7.  [recommend_movies] raises exactly when [userID] is not the
    number of a row of [preds_df], counted from 1.  In particular
    [userID = 0] or a negative one does not wrap around to the rows of the
    last users: [iloc] accepts the negative position, but the Series it
    returns is named by the row's label and the column 'Predictions' is
    never created. *)
Theorem recommend_movies_raises_iff (preds_df predictions_df : PredFrame)
    (userID : Z) (movies_df : list movies.row) (df : list ratings.row)
    (n : Z) :
  recommend_movies preds_df predictions_df userID movies_df df n = None <->
  ~ 1 <= userID <= Z.of_nat (List.length (values preds_df)).
Proof.
  split.
  - intros Hnone Hu.
    destruct (recommend_movies_returns preds_df predictions_df userID
                movies_df df n Hu) as (row & _ & Hsome).
    congruence.
  - apply recommend_movies_raises.
Qed.

Lemma sorted_firstn_skipn {X : Type} (R : X -> X -> Prop) (k : nat) (l : list X) :
  StronglySorted R l ->
  forall a b, In a (firstn k l) -> In b (skipn k l) -> R a b.
Proof.
  intros Hs a b Ha Hb. rewrite <- (firstn_skipn k l) in Hs.
  apply StronglySorted_app in Hs. destruct Hs as (Hcross & _ & _).
  apply Hcross; now apply list_elem_of_In.
Qed.

(** X8.  The candidates [recommend_movies] leaves out are not better than
    the ones it returns: for [num_recommendations >= 0] the sorted
    candidates split into the rows returned and the rest, and every row of
    the rest has a prediction that is at most that of each row returned,
    or has no prediction. *)
Theorem recommend_movies_returns_the_best
    (preds_df predictions_df : PredFrame) (userID : Z)
    (movies_df : list movies.row) (df : list ratings.row) (n : Z) :
  0 <= n ->
  1 <= userID <= Z.of_nat (List.length (values preds_df)) ->
  exists row uf kept rest,
    nth_error (values preds_df) (Z.to_nat (userID - 1)) = Some row /\
    recommend_movies preds_df predictions_df userID movies_df df n
    = Some (uf, map fst kept) /\
    Permutation (kept ++ rest)
      (scored (combine (columns preds_df) row) userID movies_df df) /\
    forall a b, In a kept -> In b rest ->
      match prediction_key a, prediction_key b with
      | Some x, Some y => (y <= x)%Q
      | None, Some _ => False
      | _, None => True
      end.
Proof.
  intros Hn Hu.
  destruct (recommend_movies_returns preds_df predictions_df userID
              movies_df df n Hu) as (row & Hrow & Hrec).
  set (rk := ranked (combine (columns preds_df) row) userID movies_df df) in *.
  exists row, (user_full userID movies_df df),
    (firstn (Z.to_nat n) rk), (skipn (Z.to_nat n) rk).
  split; [exact Hrow |]. split.
  - now rewrite Hrec, iloc_upto_nonneg.
  - split.
    + rewrite firstn_skipn. apply sort_values_desc_Permutation.
    + intros a b Ha Hb.
      pose proof (sorted_firstn_skipn _ (Z.to_nat n) rk
                    (sort_values_desc_StronglySorted prediction_key _)
                    a b Ha Hb) as H.
      unfold key_ge in H.
      destruct (prediction_key a), (prediction_key b); auto.
Qed.

Lemma recommend_movies_returns_the_best_witness :
  exists row uf kept rest,
    nth_error (values Examples.preds_df) (Z.to_nat (2 - 1)) = Some row /\
    recommend_movies Examples.preds_df Examples.preds_df 2
      Examples.movies_df Examples.ratings_df 1
    = Some (uf, map fst kept) /\
    Permutation (kept ++ rest)
      (scored (combine (columns Examples.preds_df) row) 2
         Examples.movies_df Examples.ratings_df) /\
    forall a b, In a kept -> In b rest ->
      match prediction_key a, prediction_key b with
      | Some x, Some y => (y <= x)%Q
      | None, Some _ => False
      | _, None => True
      end.
Proof.
  apply (recommend_movies_returns_the_best Examples.preds_df
           Examples.preds_df 2 Examples.movies_df Examples.ratings_df 1).
  - lia.
  - simpl. lia.
Defined.

(** X9.  The Netflix listing is the top of the retained titles: the
    sorted estimates split into the ten rows listed and the rest, and no
    row of the rest has a higher estimated score than a listed row. *)
Theorem user_683421_lists_the_best (est : Z -> Z -> Q)
    (df_title : list titles.row) (drop : list Z) :
  exists rest,
    Permutation (Netflix.user_683421 est df_title drop ++ rest)
      (Netflix.estimates est df_title drop) /\
    (List.length (Netflix.user_683421 est df_title drop) <= 10)%nat /\
    forall a b, In a (Netflix.user_683421 est df_title drop) -> In b rest ->
      (Netflix.Estimate_Score b <= Netflix.Estimate_Score a)%Q.
Proof.
  set (sorted := sort_values_desc Netflix.score_key
                   (Netflix.estimates est df_title drop)).
  exists (skipn 10 sorted).
  change (Netflix.user_683421 est df_title drop) with (firstn 10 sorted).
  split; [| split].
  - rewrite firstn_skipn. apply sort_values_desc_Permutation.
  - apply firstn_le_length.
  - intros a b Ha Hb.
    exact (sorted_firstn_skipn _ 10 sorted
             (sort_values_desc_StronglySorted Netflix.score_key _) a b Ha Hb).
Qed.

End RecommendFacts.

(** ** More on the data slicing of the Netflix notebook *)

Section BenchmarkFacts.
Import Netflix.

Lemma nth_in_range (xs : list Z) (i lo hi : Z) :
  (forall x, In x xs -> lo <= x <= hi) ->
  0 <= i < Z.of_nat (List.length xs) ->
  lo <= nth (Z.to_nat i) xs 0 <= hi.
Proof.
  intros Hxs Hi. apply Hxs, nth_In. lia.
Qed.

(** The quantile of a non-empty series lies between its smallest and its
    largest value. *)
Lemma quantile_between (q : Q) (xs : list Z) (lo hi : Z) :
  (0 <= q <= 1)%Q -> xs <> [] ->
  (forall x, In x xs -> lo <= x <= hi) ->
  exists v, quantile q xs = Some v /\ (inject_Z lo <= v <= inject_Z hi)%Q.
Proof.
  intros Hq Hne Hxs. unfold quantile.
  destruct xs as [| x0 xs0] eqn:E; [congruence |]. rewrite <- E in *.
  set (sorted := argsort (fun c : Z => Some (inject_Z c)) xs).
  set (n := Z.of_nat (List.length xs)).
  set (h := (q * inject_Z (n - 1))%Q).
  assert (Hn : 1 <= n) by (unfold n; rewrite E; simpl List.length; lia).
  assert (Hn1 : (0 <= inject_Z (n - 1))%Q)
    by (rewrite Zle_Qle in Hn; unfold Qle in *; simpl in *; lia).
  assert (Hh : (0 <= h <= inject_Z (n - 1))%Q) by (unfold h; split; nra).
  assert (Hb : 0 <= Qfloor h <= n - 1).
  { split.
    - rewrite <- (Qfloor_Z 0). apply Qfloor_resp_le, Hh.
    - rewrite <- (Qfloor_Z (n - 1)). apply Qfloor_resp_le, Hh. }
  assert (Hlen : List.length sorted = List.length xs)
    by (apply Permutation_length, argsort_Permutation).
  assert (Hsorted : forall x, In x sorted -> lo <= x <= hi).
  { intros x Hx. apply Hxs.
    eapply Permutation_in; [apply argsort_Permutation | exact Hx]. }
  pose proof (nth_in_range sorted (Qfloor h) lo hi Hsorted
                ltac:(rewrite Hlen; fold n; lia)) as H1.
  pose proof (nth_in_range sorted (Z.min (Qfloor h + 1) (n - 1)) lo hi Hsorted
                ltac:(rewrite Hlen; fold n; lia)) as H2.
  set (x1 := nth (Z.to_nat (Qfloor h)) sorted 0) in *.
  set (x2 := nth (Z.to_nat (Z.min (Qfloor h + 1) (n - 1))) sorted 0) in *.
  set (w := (h - inject_Z (Qfloor h))%Q).
  assert (Hw : (0 <= w /\ w < 1)%Q).
  { unfold w. pose proof (Qfloor_le h). pose proof (Qlt_floor h) as Hlt.
    rewrite inject_Z_plus in Hlt. change (inject_Z 1) with 1%Q in Hlt.
    clearbody h. split; lra. }
  eexists. split; [reflexivity |].
  destruct H1 as [H1l H1h], H2 as [H2l H2h].
  rewrite Zle_Qle in H1l, H1h, H2l, H2h.
  clearbody w x1 x2. split; nra.
Qed.

Lemma round0_between (x : Q) (lo hi : Z) :
  (inject_Z lo <= x <= inject_Z hi)%Q -> lo <= round0 x <= hi.
Proof.
  intros [Hlo Hhi]. unfold round0.
  pose proof (Qfloor_resp_le _ _ Hlo) as Hf1. rewrite Qfloor_Z in Hf1.
  pose proof (Qfloor_resp_le _ _ Hhi) as Hf2. rewrite Qfloor_Z in Hf2.
  assert (Hup : (1 # 2 <= x - inject_Z (Qfloor x))%Q -> Qfloor x + 1 <= hi).
  { intros Hhalf.
    assert (Hlt : (inject_Z (Qfloor x) < inject_Z hi)%Q) by lra.
    rewrite <- Zlt_Qlt in Hlt. lia. }
  destruct (x - inject_Z (Qfloor x) ?= 1 # 2)%Q eqn:Ecmp.
  - apply Qeq_alt in Ecmp. destruct (Z.even (Qfloor x)); [lia |].
    split; [lia |]. apply Hup. lra.
  - lia.
  - apply Qgt_alt in Ecmp. split; [lia |]. apply Hup. lra.
Qed.

(** The benchmark of a non-empty summary lies between the smallest and
    the largest count of the summary. *)
Lemma benchmark_range (s : list summary) (lo hi : Z) :
  s <> [] ->
  (forall x, In x s -> lo <= count x <= hi) ->
  exists b, benchmark s = Some b /\ lo <= b <= hi.
Proof.
  intros Hne Hs. unfold benchmark.
  destruct (quantile_between (8 # 10) (map count s) lo hi) as (v & Hv & Hb).
  - split; [discriminate | discriminate].
  - destruct s; [congruence | discriminate].
  - intros x Hx. apply in_map_iff in Hx. destruct Hx as (y & <- & Hy). auto.
  - rewrite Hv. eexists. split; [reflexivity |]. now apply round0_between.
Qed.

Lemma groupby_agg_range (by_ : row -> Z) (df : list row) (lo hi : Z) :
  df <> [] ->
  (forall r, In r df -> lo <= reviews by_ df (by_ r) <= hi) ->
  exists b, benchmark (groupby_agg by_ df) = Some b /\ lo <= b <= hi.
Proof.
  intros Hne Hr. apply benchmark_range.
  - destruct df as [| r df']; [congruence |].
    destruct (groupby_agg_covers by_ (r :: df') r (or_introl eq_refl))
      as (s & Hs & _).
    intros Hnil. rewrite Hnil in Hs. exact Hs.
  - intros s Hs. apply groupby_agg_In in Hs. destruct Hs as [Hk Hc].
    rewrite Hc. apply in_map_iff in Hk. destruct Hk as (r' & <- & Hr').
    now apply Hr.
Qed.

(** X10.  For a table that has a row both benchmarks exist, and each lies
    between the smallest and the largest number of reviews: of a movie for
    [movie_benchmark], of a customer for [cust_benchmark].  In particular
    a benchmark is at least 1. *)
Theorem benchmarks_between_review_counts (df : list row) (lo hi : Z) :
  df <> [] ->
  ((forall r, In r df -> lo <= reviews Movie_Id df (Movie_Id r) <= hi) ->
   exists b, movie_benchmark df = Some b /\ lo <= b <= hi /\ 1 <= b) /\
  ((forall r, In r df -> lo <= reviews Cust_Id df (Cust_Id r) <= hi) ->
   exists b, cust_benchmark df = Some b /\ lo <= b <= hi /\ 1 <= b).
Proof.
  intros Hne.
  assert (Hgen : forall by_ : row -> Z,
    (forall r, In r df -> lo <= reviews by_ df (by_ r) <= hi) ->
    exists b, benchmark (groupby_agg by_ df) = Some b /\ lo <= b <= hi /\ 1 <= b).
  { intros by_ Hr.
    destruct (groupby_agg_range by_ df (Z.max lo 1) hi Hne) as (b & Hb & Hrange).
    - intros r Hin. specialize (Hr r Hin).
      assert (1 <= reviews by_ df (by_ r)).
      { unfold reviews.
        assert (Hf : In r (List.filter (fun r0 => by_ r0 =? by_ r) df))
          by (apply filter_In; split; [exact Hin | apply Z.eqb_refl]).
        destruct (List.filter (fun r0 => by_ r0 =? by_ r) df);
          [destruct Hf | simpl List.length; lia]. }
      lia.
    - exists b. split; [exact Hb |]. lia. }
  split; apply Hgen.
Qed.

Lemma benchmarks_between_review_counts_witness :
  exists b, movie_benchmark Examples.df = Some b /\ 2 <= b <= 2 /\ 1 <= b.
Proof.
  apply (proj1 (benchmarks_between_review_counts Examples.df 2 2
                  ltac:(discriminate))).
  intros r Hr. simpl in Hr.
  repeat (destruct Hr as [<- | Hr]; [vm_compute; split; discriminate |]).
  destruct Hr.
Defined.

(** X11.  A movie with the largest number of reviews is never on
    [drop_movie_list], and a customer with the largest number of reviews
    is never on [drop_cust_list]: neither filter of the trim empties a
    table that has a row. *)
Theorem most_reviewed_is_not_dropped (df : list row) (r : row) :
  In r df ->
  ((forall r', In r' df ->
      reviews Movie_Id df (Movie_Id r') <= reviews Movie_Id df (Movie_Id r)) ->
   ~ In (Movie_Id r) (drop_movie_list df)) /\
  ((forall r', In r' df ->
      reviews Cust_Id df (Cust_Id r') <= reviews Cust_Id df (Cust_Id r)) ->
   ~ In (Cust_Id r) (drop_cust_list df)).
Proof.
  intros Hr.
  assert (Hgen : forall by_ : row -> Z,
    (forall r', In r' df -> reviews by_ df (by_ r') <= reviews by_ df (by_ r)) ->
    ~ In (by_ r) (drop_list (benchmark (groupby_agg by_ df)) (groupby_agg by_ df))).
  { intros by_ Hmax Hin.
    destruct (groupby_agg_range by_ df 0 (reviews by_ df (by_ r)))
      as (b & Hb & Hrange).
    - intros Hnil. rewrite Hnil in Hr. exact Hr.
    - intros r' Hr'. split; [unfold reviews; lia | now apply Hmax].
    - rewrite Hb in Hin. apply isin_In in Hin.
      rewrite drop_list_isin in Hin by exact Hr.
      apply Z.ltb_lt in Hin. lia. }
  split; apply Hgen.
Qed.

Lemma most_reviewed_is_not_dropped_witness :
  ~ In 1 (drop_movie_list Examples.df) /\ ~ In 7 (drop_cust_list Examples.df).
Proof.
  pose proof (most_reviewed_is_not_dropped Examples.df (Netflix.mk 7 3 1)
                ltac:(simpl; tauto)) as [Hm Hc].
  split; [apply Hm | apply Hc];
    intros r' Hr'; simpl in Hr';
    repeat (destruct Hr' as [<- | Hr']; [vm_compute; discriminate |]);
    destruct Hr'.
Defined.

(** X12.  The counts of a [groupby] add up to the number of rows: every
    row of the table is counted for exactly one movie, and for exactly one
    customer. *)
Theorem groupby_counts_add_up (df : list row) :
  Zsum (map count (df_movie_summary df)) = Z.of_nat (List.length df) /\
  Zsum (map count (df_cust_summary df)) = Z.of_nat (List.length df).
Proof.
  assert (Hgen : forall (by_ : row -> Z) (ks : list Z),
    List.NoDup ks -> (forall r, In r df -> In (by_ r) ks) ->
    Zsum (map (reviews by_ df) ks) = Z.of_nat (List.length df)).
  { intros by_ ks Hks. unfold reviews.
    induction df as [| r df IH]; intros Hin.
    - simpl. apply Zsum_zero.
    - rewrite (Zsum_ext _
        (fun k => (if by_ r =? k then 1 else 0)
                  + Z.of_nat (List.length (List.filter (fun r0 => by_ r0 =? k) df)))).
      + rewrite Zsum_add, Zsum_indicator, IH; try assumption.
        * simpl List.length. lia.
        * intros r' Hr'. apply Hin. now right.
        * apply Hin. now left.
      + intros k _. simpl List.filter.
        destruct (by_ r =? k); simpl List.length; lia. }
  unfold df_movie_summary, df_cust_summary, groupby_agg.
  rewrite !List.map_map. cbn [count].
  split; apply Hgen; try apply sorted_unique_NoDup;
    intros r Hr; apply sorted_unique_In; now apply in_map.
Qed.

End BenchmarkFacts.

(** ** The predicted ratings of the MovieLens notebook *)

Section PredictionFacts.
Import MovieLens.

Lemma nth_map_seq {Y : Type} (g : nat -> Y) (n k : nat) (d : Y) :
  (k < n)%nat -> nth k (map g (seq 0 n)) d = g k.
Proof.
  intros Hk. rewrite (nth_indep _ d (g 0%nat)) by (rewrite length_map, length_seq; lia).
  rewrite map_nth, seq_nth by lia. reflexivity.
Qed.

Lemma nth_map_in_range {X Y : Type} (f : X -> Y) (l : list X) (i : nat)
    (dx : X) (dy : Y) :
  (i < List.length l)%nat -> nth i (map f l) dy = f (nth i l dx).
Proof.
  intros Hi. rewrite (nth_indep _ dy (f dx)) by (rewrite length_map; lia).
  apply map_nth.
Qed.

Lemma products_by_position (a b : list Q) :
  List.length a = List.length b ->
  map (fun p => (fst p * snd p)%Q) (combine a b)
  = map (fun k => (nth k a 0 * nth k b 0)%Q) (seq 0 (List.length a)).
Proof.
  revert b. induction a as [| x a IH]; intros [| y b] Hlen;
    try discriminate Hlen; [reflexivity |].
  cbn [combine map List.length seq fst snd nth]. f_equal.
  rewrite <- seq_shift, List.map_map. apply IH. now inversion Hlen.
Qed.

Lemma Qsum_ext_Qeq {X : Type} (f g : X -> Q) (l : list X) :
  (forall x, In x l -> (f x == g x)%Q) ->
  (Qsum (map f l) == Qsum (map g l))%Q.
Proof.
  induction l as [| x l IH]; intros H; [reflexivity |].
  change (f x + Qsum (map f l) == g x + Qsum (map g l))%Q.
  rewrite (H x) by now left. rewrite IH; [reflexivity |].
  intros y Hy. apply H. now right.
Qed.

Lemma Qsum_zero_terms {X : Type} (l : list X) :
  (Qsum (map (fun _ => 0%Q) l) == 0)%Q.
Proof.
  induction l as [| x l IH]; [reflexivity |].
  change (0 + Qsum (map (fun _ : X => 0%Q) l) == 0)%Q. rewrite IH. ring.
Qed.

Lemma Qsum_indicator (f : nat -> Q) (k : nat) (l : list nat) :
  List.NoDup l -> In k l ->
  (Qsum (map (fun i => if Nat.eqb i k then f i else 0%Q) l) == f k)%Q.
Proof.
  induction 1 as [| x l Hx Hnd IH]; [intros [] |].
  intros Hin.
  change (Qsum (map (fun i => if Nat.eqb i k then f i else 0%Q) (x :: l)))
    with ((if Nat.eqb x k then f x else 0)
          + Qsum (map (fun i => if Nat.eqb i k then f i else 0%Q) l))%Q.
  destruct (Nat.eqb_spec x k) as [-> | Hne].
  - rewrite (Qsum_ext_Qeq _ (fun _ => 0%Q)).
    + rewrite Qsum_zero_terms. ring.
    + intros y Hy. destruct (Nat.eqb_spec y k); [subst; contradiction | reflexivity].
  - destruct Hin as [-> | Hin]; [contradiction |]. rewrite IH by exact Hin. ring.
Qed.

Lemma dot_by_position (a b : list Q) :
  List.length a = List.length b ->
  dot a b = Qsum (map (fun k => (nth k a 0 * nth k b 0)%Q) (seq 0 (List.length a))).
Proof. intros Hlen. unfold dot. now rewrite products_by_position. Qed.

Lemma ncols_np_diag (s : list Q) : ncols (np_diag s) = List.length s.
Proof.
  unfold np_diag, ncols. destruct s as [| x s]; [reflexivity |].
  cbn [List.length seq map]. now rewrite length_map, length_seq.
Qed.

Lemma column_np_diag (s : list Q) (k : nat) :
  (k < List.length s)%nat ->
  column k (np_diag s)
  = map (fun i => if Nat.eqb i k then nth i s 0%Q else 0%Q)
        (seq 0 (List.length s)).
Proof.
  intros Hk. unfold column, np_diag. rewrite List.map_map.
  apply map_ext. intros i. now rewrite nth_map_seq.
Qed.

(** Multiplying by [np.diag(sigma)] scales the k-th entry of a row by the
    k-th singular value. *)
Lemma dot_column_np_diag (u s : list Q) (k : nat) :
  List.length u = List.length s -> (k < List.length s)%nat ->
  (dot u (column k (np_diag s)) == nth k u 0 * nth k s 0)%Q.
Proof.
  intros Hlen Hk. rewrite column_np_diag by exact Hk.
  rewrite dot_by_position by (now rewrite length_map, length_seq).
  rewrite Hlen.
  rewrite (Qsum_ext_Qeq _
             (fun i => if Nat.eqb i k then (nth i u 0 * nth i s 0)%Q else 0%Q)).
  - apply (Qsum_indicator (fun i => (nth i u 0 * nth i s 0)%Q)).
    + apply seq_NoDup.
    + apply in_seq. lia.
  - intros i Hi. apply in_seq in Hi.
    rewrite nth_map_seq by lia.
    destruct (Nat.eqb i k); ring.
Qed.

Lemma nth_np_dot (M N : matrix) (i j : nat) :
  (i < List.length M)%nat -> (j < ncols N)%nat ->
  nth j (nth i (np_dot M N) []) 0%Q = dot (nth i M []) (column j N).
Proof.
  intros Hi Hj. unfold np_dot.
  rewrite (nth_map_in_range _ M i [] []) by exact Hi.
  now rewrite nth_map_seq.
Qed.

Lemma nth_np_dot_row (M N : matrix) (i : nat) :
  (i < List.length M)%nat ->
  nth i (np_dot M N) []
  = map (fun j => dot (nth i M []) (column j N)) (seq 0 (ncols N)).
Proof.
  intros Hi. unfold np_dot. now rewrite (nth_map_in_range _ M i [] []).
Qed.

Lemma nth_add_column_vector (M : matrix) (v : list Q) (i j : nat) :
  List.length M = List.length v ->
  (i < List.length M)%nat -> (j < List.length (nth i M []))%nat ->
  nth j (nth i (add_column_vector M v) []) 0%Q
  = (nth j (nth i M []) 0 + nth i v 0)%Q.
Proof.
  intros Hlen Hi Hj. unfold add_column_vector.
  rewrite (nth_map_in_range _ (combine M v) i ([], 0%Q) [])
    by (rewrite length_combine; lia).
  rewrite combine_nth by exact Hlen. cbn [fst snd].
  now rewrite (nth_map_in_range _ _ j 0%Q 0%Q).
Qed.

(** X13.  Each predicted rating is the user's mean plus the sum, over the
    latent features, of the user's weight times the singular value times
    the movie's weight: the entry (i, j) of [all_user_predicted_ratings]
    is [sum_k U[i][k] * sigma[k] * Vt[k][j] + user_ratings_mean[i]]. *)
Theorem predicted_rating_formula
    (seed : Type)
    (svds : seed -> matrix -> nat -> option (matrix * list Q * matrix))
    (s : seed) (p : Pivot Q) (U Vt : matrix) (sigma : list Q) (i j : nat) :
  svds s (R_demeaned p) 100%nat = Some (U, sigma, Vt) ->
  Forall (fun r => List.length r = List.length sigma) U ->
  List.length Vt = List.length sigma ->
  List.length U = List.length (user_ratings_mean p) ->
  (i < List.length U)%nat -> (j < ncols Vt)%nat ->
  exists P,
    all_user_predicted_ratings seed svds s p = Some P /\
    (nth j (nth i P []) 0
     == Qsum (map (fun k => nth k (nth i U []) 0 * nth k sigma 0
                            * nth j (nth k Vt []) 0)
                  (seq 0 (List.length sigma)))
        + nth i (user_ratings_mean p) 0)%Q.
Proof.
  intros Hsvds HU HVt Hmean Hi Hj.
  unfold all_user_predicted_ratings. rewrite Hsvds.
  eexists. split; [reflexivity |].
  assert (Hrow : List.length (nth i U []) = List.length sigma).
  { rewrite List.Forall_forall in HU. apply HU, nth_In, Hi. }
  assert (HlenUD : List.length (np_dot U (np_diag sigma)) = List.length U)
    by (unfold np_dot; now rewrite length_map).
  assert (HlenX : List.length (np_dot (np_dot U (np_diag sigma)) Vt)
                  = List.length U)
    by (unfold np_dot at 1; now rewrite length_map).
  rewrite nth_add_column_vector.
  - rewrite nth_np_dot by (rewrite ?HlenUD; assumption).
    rewrite nth_np_dot_row by exact Hi. rewrite ncols_np_diag.
    rewrite dot_by_position
      by (unfold column; now rewrite !length_map, length_seq).
    rewrite length_map, length_seq.
    apply Qplus_comp; [| reflexivity].
    apply Qsum_ext_Qeq. intros k Hk. apply in_seq in Hk.
    rewrite nth_map_seq by lia.
    rewrite dot_column_np_diag by (try exact Hrow; lia).
    unfold column. rewrite (nth_map_in_range _ Vt k [] 0%Q) by lia.
    reflexivity.
  - now rewrite HlenX.
  - now rewrite HlenX.
  - rewrite nth_np_dot_row by (now rewrite HlenUD).
    now rewrite length_map, length_seq.
Qed.

Lemma predicted_rating_formula_witness :
  let p := {| index := [1; 2]; pcolumns := [1; 3]; cells := [[0; 5]; [4; 0]]%Q |} in
  exists P,
    all_user_predicted_ratings unit
      (fun _ _ _ => Some ([[1; 2]; [0; 1]], [3; 4], [[5; 1]; [6; 2]])%Q) tt p
    = Some P /\
    (nth 0 (nth 0 P []) 0
     == Qsum (map (fun k => nth k (nth 0 [[1; 2]; [0; 1]] []) 0 * nth k [3; 4] 0
                            * nth 0 (nth k [[5; 1]; [6; 2]] []) 0)
                  (seq 0 2))
        + nth 0 (user_ratings_mean p) 0)%Q.
Proof.
  apply (predicted_rating_formula unit
           (fun _ _ _ => Some ([[1; 2]; [0; 1]], [3; 4], [[5; 1]; [6; 2]])%Q) tt
           {| index := [1; 2]; pcolumns := [1; 3]; cells := [[0; 5]; [4; 0]]%Q |}
           [[1; 2]; [0; 1]]%Q [[5; 1]; [6; 2]]%Q [3; 4]%Q 0%nat 0%nat).
  - reflexivity.
  - repeat constructor.
  - reflexivity.
  - reflexivity.
  - simpl. lia.
  - simpl. lia.
Defined.

End PredictionFacts.

(** ** The remaining cells of the Netflix notebook *)

Section ViewingFacts.
Import Viewing.

Lemma headers_customers_length (df : raw) :
  (List.length (headers df) + List.length (customers df))%nat = List.length df.
Proof.
  unfold headers, customers. rewrite !length_map.
  induction df as [| [c [x |]] df IH]; simpl; lia.
Qed.

Lemma headers_customers_In (df : raw) (c : string) :
  In c (map fst df) <-> In c (headers df) \/ In c (customers df).
Proof.
  unfold headers, customers.
  induction df as [| [c' [x |]] df IH]; simpl; tauto.
Qed.

Lemma NoDup_same_length {X : Type} (l1 l2 : list X) :
  List.NoDup l1 -> List.NoDup l2 -> (forall x, In x l1 <-> In x l2) ->
  List.length l1 = List.length l2.
Proof.
  intros H1 H2 Hiff. apply Permutation_length.
  now apply Stdlib.Sorting.Permutation.NoDup_Permutation.
Qed.

Lemma NoDup_app_disjoint {X : Type} (l1 l2 : list X) :
  List.NoDup l1 -> List.NoDup l2 -> (forall x, In x l1 -> ~ In x l2) ->
  List.NoDup (l1 ++ l2).
Proof.
  intros H1 H2 Hd. induction H1 as [| x l1 Hx H1 IH]; [exact H2 |].
  simpl. constructor.
  - intros Hin. apply in_app_or in Hin. destruct Hin as [Hin | Hin];
      [contradiction | apply (Hd x); [now left | exact Hin]].
  - apply IH. intros y Hy. apply Hd. now right.
Qed.

(** X14.  [rating_count] is the number of rating rows of the raw table.
    [cust_count] is the number of distinct customers when the header rows
    have pairwise distinct texts in the first column and none of them is
    also the id of a customer; [movie_count] is the number of header
    rows. *)
Theorem viewing_counts (df : raw) :
  movie_count df = Z.of_nat (List.length (headers df)) /\
  rating_count df = Z.of_nat (List.length (customers df)) /\
  (List.NoDup (headers df) ->
   (forall h, In h (headers df) -> ~ In h (customers df)) ->
   cust_count df = nunique (customers df)).
Proof.
  assert (Hm : movie_count df = Z.of_nat (List.length (headers df)))
    by (unfold movie_count, headers; now rewrite length_map).
  split; [exact Hm |]. split.
  - unfold rating_count. rewrite Hm.
    pose proof (headers_customers_length df). lia.
  - intros Hnd Hdisj. unfold cust_count, nunique. rewrite Hm.
    rewrite (NoDup_same_length (nodup string_dec (map fst df))
               (headers df ++ nodup string_dec (customers df))).
    + rewrite length_app. lia.
    + apply NoDup_nodup.
    + apply NoDup_app_disjoint; [exact Hnd | apply NoDup_nodup |].
      intros x Hx Hin. apply nodup_In in Hin. now apply (Hdisj x).
    + intros x. rewrite nodup_In, headers_customers_In, in_app_iff, nodup_In.
      reflexivity.
Qed.

Lemma viewing_counts_witness :
  let df := [("1:", None); ("1488844", Some 3%Q); ("822109", Some 5%Q);
             ("2:", None); ("1488844", Some 4%Q)]%string in
  cust_count df = nunique (customers df).
Proof.
  cbv zeta.
  apply (proj2 (proj2 (viewing_counts
           [("1:", None); ("1488844", Some 3%Q); ("822109", Some 5%Q);
            ("2:", None); ("1488844", Some 4%Q)]%string))).
  - simpl. repeat constructor; simpl; intuition discriminate.
  - simpl. intros h [<- | [<- | []]]; intuition discriminate.
Defined.

End ViewingFacts.

Section SimilarFacts.
Import Similar.

(** X15.  [df_683421] lists movies customer 683421 rated 5 and no others,
    each with the name [df_title] gives the movie, or NaN when [df_title]
    has no row for it; with distinct ids in [df_title] it has exactly one
    entry per such rating, in the order of the table. *)
Theorem df_683421_is_the_five_star_movies
    (df : list Netflix.row) (df_title : list titles.row) :
  (forall x, In x (df_683421 df df_title) ->
     (exists r, In r df /\ Netflix.Cust_Id r = 683421 /\
                (Netflix.Rating r == 5)%Q /\ Netflix.Movie_Id r = fst x) /\
     match snd x with
     | Some name => exists t, In t df_title /\ titles.Movie_Id t = fst x /\
                              titles.Name t = name
     | None => forall t, In t df_title -> titles.Movie_Id t <> fst x
     end) /\
  (List.NoDup (map titles.Movie_Id df_title) ->
   map fst (df_683421 df df_title)
   = map Netflix.Movie_Id
       (List.filter (fun r => (Netflix.Cust_Id r =? 683421)
                              && Qeq_bool (Netflix.Rating r) 5) df)).
Proof.
  unfold df_683421. split.
  - intros x Hx. apply in_map_iff in Hx. destruct Hx as ([r o] & <- & Hin).
    apply merge_left_In in Hin. cbn [fst snd] in *. destruct Hin as [Hr Ho].
    apply filter_In in Hr. destruct Hr as [Hr Hc].
    apply andb_true_iff in Hc. destruct Hc as [Hc H5].
    apply Z.eqb_eq in Hc. apply Qeq_bool_iff in H5.
    split; [exists r; auto |].
    destruct o as [t |]; cbn [option_map].
    + exists t. tauto.
    + exact Ho.
  - intros Hnd. rewrite List.map_map. cbn [fst].
    rewrite <- (List.map_map fst Netflix.Movie_Id).
    now rewrite merge_left_unique_keys.
Qed.

Lemma df_683421_is_the_five_star_movies_witness :
  map fst (df_683421 Examples.df Examples.df_title)
  = map Netflix.Movie_Id
      (List.filter (fun r => (Netflix.Cust_Id r =? 683421)
                             && Qeq_bool (Netflix.Rating r) 5) Examples.df).
Proof.
  apply (proj2 (df_683421_is_the_five_star_movies Examples.df Examples.df_title)).
  simpl. repeat constructor; simpl; intuition discriminate.
Defined.

Variable corrwith : Pivot (option Q) -> list (option Q) -> list (option Q).

Lemma filter_first_match (movie_title : string)
    (pre post : list titles.row) (t : titles.row) :
  (forall t', In t' pre -> titles.Name t' <> movie_title) ->
  titles.Name t = movie_title ->
  exists rest,
    List.filter (fun t => String.eqb (titles.Name t) movie_title) (pre ++ t :: post)
    = t :: rest.
Proof.
  intros Hpre Ht. rewrite List.filter_app.
  assert (E : List.filter (fun t => String.eqb (titles.Name t) movie_title) pre = []).
  { induction pre as [| t' pre IH]; [reflexivity |]. simpl.
    destruct (String.eqb_spec (titles.Name t') movie_title) as [He | _].
    - exfalso. apply (Hpre t'); [now left | exact He].
    - apply IH. intros t'' Hin. apply Hpre. now right. }
  rewrite E. simpl. rewrite Ht, String.eqb_refl. eauto.
Qed.

(** X16.  [recommend] raises when no row of [df_title] has the title.
    Otherwise the first row with the title decides: the call raises
    exactly when that movie is not a column of [df_p] (it has been trimmed
    away), also when a later movie of the same title is a column. *)
Theorem recommend_raises_on_unknown_title
    (df_p : Pivot (option Q)) (df_title : list titles.row)
    (df_movie_summary : list Netflix.summary)
    (movie_title : string) (min_count : Z) :
  ((forall t, In t df_title -> titles.Name t <> movie_title) ->
   recommend corrwith df_p df_title df_movie_summary movie_title min_count
   = None) /\
  (forall pre t post,
     df_title = pre ++ t :: post ->
     (forall t', In t' pre -> titles.Name t' <> movie_title) ->
     titles.Name t = movie_title ->
     (recommend corrwith df_p df_title df_movie_summary movie_title min_count
      = None <-> ~ In (titles.Movie_Id t) (pcolumns df_p))).
Proof.
  split.
  - intros Hnone. unfold recommend.
    destruct (List.filter _ df_title) as [| t l] eqn:E; [reflexivity |].
    assert (Hin : In t (t :: l)) by now left. rewrite <- E in Hin.
    apply filter_In in Hin. destruct Hin as [Hin Hn].
    apply String.eqb_eq in Hn. exfalso. now apply (Hnone t).
  - intros pre t post -> Hpre Ht. unfold recommend.
    destruct (filter_first_match movie_title pre post t Hpre Ht) as [rest ->].
    split.
    + intros Hnone Hin.
      destruct (position_Some _ _ Hin) as (j & Hj & _).
      rewrite Hj in Hnone. discriminate Hnone.
    + intros Hin. now rewrite (position_None _ _ Hin).
Qed.

End SimilarFacts.

Lemma recommend_raises_on_unknown_title_witness :
  Similar.recommend (fun p _ => map (fun _ => Some 1%Q) (pcolumns p))
    (Netflix.pivot_table Examples.df) Examples.df_title
    (Netflix.df_movie_summary Examples.df) "Character" 0 = None.
Proof.
  apply (proj2 (recommend_raises_on_unknown_title
                  (fun p _ => map (fun _ => Some 1%Q) (pcolumns p))
                  (Netflix.pivot_table Examples.df) Examples.df_title
                  (Netflix.df_movie_summary Examples.df) "Character" 0)
           [titles.mk 1 (Some 2003) "Dinosaur Planet";
            titles.mk 2 (Some 2004) "Isle of Man TT 2004 Review"]
           (titles.mk 3 None "Character") []).
  - reflexivity.
  - simpl. intros t' [<- | [<- | []]]; discriminate.
  - reflexivity.
  - simpl. intuition discriminate.
Defined.

Section SimilarResult.
Import Similar.
Variable corrwith : Pivot (option Q) -> list (option Q) -> list (option Q).

Lemma StronglySorted_map {X Y : Type} (R : Y -> Y -> Prop) (h : X -> Y)
    (l : list X) :
  StronglySorted R (map h l) <-> StronglySorted (fun a b => R (h a) (h b)) l.
Proof.
  induction l as [| x l IH]; simpl.
  - split; constructor.
  - split; intros H; inversion H as [| ? ? Hs Hx]; subst; constructor;
      try (now apply IH).
    + rewrite List.Forall_map in Hx. exact Hx.
    + rewrite List.Forall_map. exact Hx.
Qed.

Lemma StronglySorted_filter {X : Type} (R : X -> X -> Prop) (f : X -> bool)
    (l : list X) :
  StronglySorted R l -> StronglySorted R (List.filter f l).
Proof.
  induction 1 as [| x l Hs IH Hx]; simpl; [constructor |].
  destruct (f x); [| exact IH]. constructor; [exact IH |].
  apply List.Forall_forall. intros y Hy. apply filter_In in Hy.
  rewrite List.Forall_forall in Hx. now apply Hx.
Qed.

Lemma StronglySorted_firstn {X : Type} (R : X -> X -> Prop) (k : nat)
    (l : list X) :
  StronglySorted R l -> StronglySorted R (firstn k l).
Proof.
  intros Hs. revert k. induction Hs as [| x l Hs IH Hx]; intros [| k]; simpl;
    try constructor.
  - apply IH.
  - apply List.Forall_forall. intros y Hy. apply In_firstn in Hy.
    rewrite List.Forall_forall in Hx. now apply Hx.
Qed.

Lemma corr_target_sorted (df_p : Pivot (option Q)) (df_title : list titles.row)
    (df_movie_summary : list Netflix.summary) (target : list (option Q)) :
  List.NoDup (map titles.Movie_Id df_title) ->
  List.NoDup (map Netflix.group df_movie_summary) ->
  StronglySorted (fun a b => (PearsonR b <= PearsonR a)%Q)
    (corr_target corrwith df_p df_title df_movie_summary target).
Proof.
  intros Ht Hs. unfold corr_target.
  set (sorted := sort_values_desc (fun x : Z * Q => Some (snd x))
                   (dropna (combine (pcolumns df_p) (corrwith df_p target)))).
  set (named := merge_left fst titles.Movie_Id sorted df_title).
  set (counted := merge_left (fun x : Z * Q * option titles.row => fst (fst x))
                    Netflix.group named df_movie_summary).
  assert (H0 : StronglySorted (fun a b : Z * Q => (snd b <= snd a)%Q) sorted).
  { eapply StronglySorted_weaken;
      [| apply (sort_values_desc_StronglySorted (fun x : Z * Q => Some (snd x)))].
    intros a b H. exact H. }
  assert (H1 : StronglySorted
                 (fun a b : Z * Q * option titles.row =>
                    (snd (fst b) <= snd (fst a))%Q) named).
  { apply (StronglySorted_map (fun a b : Z * Q => (snd b <= snd a)%Q) fst).
    unfold named. now rewrite merge_left_unique_keys. }
  assert (H2 : StronglySorted
                 (fun a b : Z * Q * option titles.row * option Netflix.summary =>
                    (snd (fst (fst b)) <= snd (fst (fst a)))%Q) counted).
  { apply (StronglySorted_map
             (fun a b : Z * Q * option titles.row =>
                (snd (fst b) <= snd (fst a))%Q) fst).
    unfold counted. now rewrite merge_left_unique_keys. }
  apply StronglySorted_map. exact H2.
Qed.

(** X17.  When [recommend] returns, the table it prints has at most ten
    rows; every row has a review count above [min_count]; and, the ids of
    [df_title] and of [df_movie_summary] being distinct, the rows are in
    descending order of their correlation with the chosen movie. *)
Theorem recommend_prints_top_correlations
    (df_p : Pivot (option Q)) (df_title : list titles.row)
    (df_movie_summary : list Netflix.summary)
    (movie_title : string) (min_count : Z) (rows : list similar) :
  recommend corrwith df_p df_title df_movie_summary movie_title min_count
  = Some rows ->
  (List.length rows <= 10)%nat /\
  (forall r, In r rows -> exists c, count r = Some c /\ min_count < c) /\
  (List.NoDup (map titles.Movie_Id df_title) ->
   List.NoDup (map Netflix.group df_movie_summary) ->
   StronglySorted (fun a b => (PearsonR b <= PearsonR a)%Q) rows).
Proof.
  unfold recommend.
  destruct (List.filter _ df_title) as [| t _]; [discriminate |].
  destruct (Netflix.position _ _) as [j |]; [| discriminate].
  intros H. inversion H as [Hrows]. clear H.
  change (iloc_upto 10 ?l) with (firstn 10 l).
  split; [apply firstn_le_length |]. split.
  - intros r Hr. apply In_firstn, filter_In in Hr. destruct Hr as [_ Hc].
    unfold above_min_count in Hc. destruct (count r) as [c |]; [| discriminate].
    exists c. split; [reflexivity | now apply Z.ltb_lt].
  - intros Ht Hs. apply StronglySorted_firstn, StronglySorted_filter.
    now apply corr_target_sorted.
Qed.

End SimilarResult.

Lemma recommend_prints_top_correlations_witness :
  exists rows,
    Similar.recommend (fun p _ => map (fun _ => Some 1%Q) (pcolumns p))
      (Netflix.pivot_table Examples.df) Examples.df_title
      (Netflix.df_movie_summary Examples.df) "Dinosaur Planet" 1 = Some rows /\
    (List.length rows <= 10)%nat /\
    (forall r, In r rows -> exists c, Similar.count r = Some c /\ 1 < c).
Proof.
  eexists. split; [reflexivity |].
  pose proof (recommend_prints_top_correlations
                (fun p _ => map (fun _ => Some 1%Q) (pcolumns p))
                (Netflix.pivot_table Examples.df) Examples.df_title
                (Netflix.df_movie_summary Examples.df) "Dinosaur Planet" 1
                _ eq_refl) as (Hlen & Hcount & _).
  split; [exact Hlen | exact Hcount].
Defined.

(** ** Reading the data files of the MovieLens notebook *)

Section ParsingFacts.
Import Parsing.
Open Scope string_scope.

Lemma split_two (c d : ascii) (s : string) :
  split (String c (String d s))
  = if Ascii.eqb c ":" && Ascii.eqb d ":"
    then EmptyString :: split s
    else push c (split (String d s)).
Proof. reflexivity. Qed.

Lemma split_no_separator (f : string) :
  has_separator f = false -> split f = [f].
Proof.
  induction f as [| c f IH]; [reflexivity |].
  destruct f as [| d f'].
  - reflexivity.
  - intros H. cbn [has_separator] in H. apply orb_false_iff in H.
    destruct H as [Hcd Hf]. rewrite split_two, Hcd, (IH Hf). reflexivity.
Qed.

Lemma split_field (f rest : string) :
  has_separator f = false -> ends_with (Ascii.eqb ":") f = false ->
  split (f ++ "::" ++ rest) = f :: split rest.
Proof.
  induction f as [| c f IH]; intros Hsep Hend.
  - reflexivity.
  - destruct f as [| d f'].
    + cbn [ends_with] in Hend. rewrite Ascii.eqb_sym in Hend.
      change (String c "" ++ "::" ++ rest) with (String c (String ":" (String ":" rest))).
      rewrite split_two, Hend. cbn [andb].
      rewrite split_two. reflexivity.
    + cbn [has_separator] in Hsep. apply orb_false_iff in Hsep.
      destruct Hsep as [Hcd Hf].
      change (ends_with (Ascii.eqb ":") (String c (String d f')))
        with (ends_with (Ascii.eqb ":") (String d f')) in Hend.
      specialize (IH Hf Hend).
      change (String c (String d f') ++ "::" ++ rest)
        with (String c (String d (f' ++ "::" ++ rest))).
      change (String d f' ++ "::" ++ rest)
        with (String d (f' ++ "::" ++ rest)) in IH.
      rewrite split_two, Hcd, IH. reflexivity.
Qed.

Lemma split_join (fields : list string) :
  fields <> [] ->
  forallb (fun f => negb (has_separator f)) fields = true ->
  forallb (fun f => negb (ends_with (Ascii.eqb ":") f)) (removelast fields) = true ->
  split (join fields) = fields.
Proof.
  unfold join. induction fields as [| f fields IH]; [congruence |].
  intros _ Hsep Hend. cbn [forallb] in Hsep. apply andb_true_iff in Hsep.
  destruct Hsep as [Hf Hsep]. apply negb_true_iff in Hf.
  destruct fields as [| g fields].
  - cbn [String.concat]. now apply split_no_separator.
  - change (removelast (f :: g :: fields)) with (f :: removelast (g :: fields)) in Hend.
    cbn [forallb] in Hend. apply andb_true_iff in Hend.
    destruct Hend as [Hfe Hend]. apply negb_true_iff in Hfe.
    change (String.concat "::" (f :: g :: fields))
      with (f ++ "::" ++ String.concat "::" (g :: fields)).
    rewrite split_field by assumption.
    rewrite IH; [reflexivity | discriminate | exact Hsep | exact Hend].
Qed.

Lemma rstrip_trailing_space (s : string) (w : ascii) :
  isspace w = true -> rstrip (s ++ String w EmptyString) = rstrip s.
Proof.
  intros Hw. induction s as [| c s IH].
  - change (rstrip ("" ++ String w ""))
      with (if isspace w then "" else String w ""). now rewrite Hw.
  - change (rstrip (String c s ++ String w ""))
      with (match rstrip (s ++ String w "") with
            | EmptyString => if isspace c then EmptyString else String c EmptyString
            | String a r => String c (String a r)
            end).
    rewrite IH. reflexivity.
Qed.

Lemma rstrip_id (s : string) :
  ends_with isspace s = false -> rstrip s = s.
Proof.
  induction s as [| c s IH]; [reflexivity |].
  destruct s as [| d s'].
  - cbn [ends_with rstrip]. now intros ->.
  - intros H.
    change (ends_with isspace (String c (String d s')))
      with (ends_with isspace (String d s')) in H.
    cbn [rstrip] in *. rewrite (IH H). reflexivity.
Qed.

Lemma strip_line (s : string) :
  starts_with isspace s = false -> ends_with isspace s = false ->
  strip (s ++ String "010" EmptyString) = s.
Proof.
  intros Hs He. unfold strip. destruct s as [| c s].
  - reflexivity.
  - cbn [starts_with] in Hs.
    change (lstrip (String c s ++ String "010" EmptyString))
      with (if isspace c then lstrip (s ++ String "010" EmptyString)
            else String c s ++ String "010" EmptyString).
    rewrite Hs, rstrip_trailing_space by reflexivity.
    now apply rstrip_id.
Qed.

(** X18.  Reading back the lines written for rows of fields returns the
    rows: a line made of fields joined by "::" and ended by a newline is
    read as these fields, provided no field has "::" in it, no field but
    the last ends with ":", and the line has no whitespace at its ends (a
    single ":" inside a field, as in a movie title, is kept). *)
Theorem read_list_of_lines (rows : list (list string)) :
  forallb writable rows = true ->
  read_list (map line rows) = rows.
Proof.
  unfold read_list. induction rows as [| fields rows IH]; [reflexivity |].
  cbn [forallb map]. intros H. apply andb_true_iff in H. destruct H as [Hw Hrows].
  rewrite (IH Hrows). f_equal.
  unfold writable in Hw. repeat (apply andb_true_iff in Hw; destruct Hw as [Hw ?]).
  unfold line. rewrite strip_line by (now apply negb_true_iff).
  apply split_join; try assumption.
  destruct fields; [discriminate | discriminate].
Qed.

Lemma read_list_of_lines_witness :
  read_list (map line [["1"; "1193"; "5"; "978300760"];
                       ["2"; "Star Wars: Episode IV (1977)"; "Action|Sci-Fi"]])
  = [["1"; "1193"; "5"; "978300760"];
     ["2"; "Star Wars: Episode IV (1977)"; "Action|Sci-Fi"]].
Proof.
  apply (read_list_of_lines
           [["1"; "1193"; "5"; "978300760"];
            ["2"; "Star Wars: Episode IV (1977)"; "Action|Sci-Fi"]]).
  reflexivity.
Defined.

End ParsingFacts.

Section PredsColumns.
Import MovieLens.

(** X19.  The frame [preds_df] the notebook builds exists only for a
    table in which no (UserID, MovieID) pair occurs twice, and its columns
    are the distinct MovieIDs of the table in ascending order: a movie has
    a column, and so a prediction, exactly when some user has rated
    it. *)
Theorem preds_df_columns
    (seed : Type)
    (svds : seed -> matrix -> nat -> option (matrix * list Q * matrix))
    (s : seed) (ratings_df : list ratings.row) (p : PredFrame) :
  preds_df seed svds s ratings_df = Some p ->
  List.NoDup (map entry_key ratings_df) /\
  StronglySorted Z.lt (columns p) /\
  List.NoDup (columns p) /\
  forall m, In m (columns p) <->
            exists r, In r ratings_df /\ ratings.MovieID r = m.
Proof.
  unfold preds_df. destruct (R_df ratings_df) as [piv |] eqn:E; [| discriminate].
  destruct (R_df_Some _ _ E) as [Hnd ->].
  destruct (all_user_predicted_ratings seed svds s _) as [v |]; [| discriminate].
  cbn [option_map pcolumns]. intros H. inversion H. cbn [columns].
  split; [exact Hnd |]. split; [apply sorted_unique_sorted |].
  split; [apply sorted_unique_NoDup |].
  intros m. rewrite sorted_unique_In, in_map_iff.
  split; intros (r & Ha & Hb); exists r; tauto.
Qed.

Lemma preds_df_columns_witness :
  match preds_df nat Examples.svds 1%nat Examples.many_ratings with
  | Some p => List.NoDup (columns p)
  | None => False
  end.
Proof.
  destruct (preds_df nat Examples.svds 1%nat Examples.many_ratings) as [p |] eqn:E.
  - exact (proj1 (proj2 (proj2 (preds_df_columns nat Examples.svds 1%nat
                                  Examples.many_ratings p E)))).
  - vm_compute in E. discriminate E.
Defined.

End PredsColumns.

(** ** The size of the recommendations and the candidates of the listing *)

Section MoreRecommendFacts.
Import MovieLens.

(** X20.  The number of rows [recommend_movies] returns, for a user that
    has a row in [preds_df] and distinct column labels: with [c] movies the
    user has not rated, it is the smaller of [num_recommendations] and [c]
    when [num_recommendations] is not negative, and [c + num_recommendations],
    or 0 if that is negative, otherwise (the slice then drops rows from the
    end). *)
Theorem recommend_movies_row_count
    (preds_df predictions_df : PredFrame) (userID : Z)
    (movies_df : list movies.row) (df : list ratings.row)
    (num_recommendations : Z) :
  1 <= userID <= Z.of_nat (List.length (values preds_df)) ->
  List.NoDup (columns preds_df) ->
  exists uf recs,
    recommend_movies preds_df predictions_df userID movies_df df
      num_recommendations = Some (uf, recs) /\
    let c := Z.of_nat (List.length (Spec.unrated userID movies_df df)) in
    Z.of_nat (List.length recs)
    = if 0 <=? num_recommendations then Z.min num_recommendations c
      else Z.max 0 (c + num_recommendations).
Proof.
  intros Hu Hnd.
  destruct (recommend_movies_returns preds_df predictions_df userID
              movies_df df num_recommendations Hu) as (row & _ & Hrec).
  eexists _, _. split; [exact Hrec |]. cbv zeta.
  set (rk := ranked (combine (columns preds_df) row) userID movies_df df).
  assert (Hlen : List.length rk = List.length (Spec.unrated userID movies_df df)).
  { rewrite <- (length_map fst rk). apply Permutation_length.
    unfold rk, ranked. rewrite sort_values_desc_Permutation.
    unfold scored. rewrite merge_left_unique_keys.
    - now rewrite not_rated_unrated.
    - now apply sorted_user_predictions_NoDup. }
  rewrite length_map. unfold iloc_upto.
  destruct (0 <=? num_recommendations) eqn:E; rewrite length_firstn, Hlen; lia.
Qed.

Lemma recommend_movies_row_count_witness :
  exists uf recs,
    recommend_movies Examples.preds_df Examples.preds_df 1
      Examples.movies_df Examples.ratings_df (-2) = Some (uf, recs) /\
    let c := Z.of_nat (List.length
                         (Spec.unrated 1 Examples.movies_df Examples.ratings_df)) in
    Z.of_nat (List.length recs)
    = if 0 <=? -2 then Z.min (-2) c else Z.max 0 (c + -2).
Proof.
  apply (recommend_movies_row_count Examples.preds_df Examples.preds_df 1
           Examples.movies_df Examples.ratings_df (-2)).
  - simpl. lia.
  - simpl. repeat constructor; simpl; intuition lia.
Defined.

Lemma drop_list_In (by_ : Netflix.row -> Z) (df : list Netflix.row) (b k : Z) :
  In k (Netflix.drop_list (Some b) (Netflix.groupby_agg by_ df)) <->
  1 <= Netflix.reviews by_ df k < b.
Proof.
  unfold Netflix.drop_list. rewrite in_map_iff. split.
  - intros (s & Hg & Hs). apply filter_In in Hs. destruct Hs as [Hs Hb].
    apply groupby_agg_In in Hs. destruct Hs as [Hk Hc].
    simpl in Hb. rewrite Hc, Hg in Hb. apply Z.ltb_lt in Hb.
    rewrite Hg in Hk. apply in_map_iff in Hk. destruct Hk as (r & Hr & Hin).
    split; [| exact Hb]. unfold Netflix.reviews.
    assert (Hf : In r (List.filter (fun r0 => by_ r0 =? k) df))
      by (apply filter_In; split; [exact Hin | now apply Z.eqb_eq]).
    destruct (List.filter (fun r0 => by_ r0 =? k) df);
      [destruct Hf | simpl List.length; lia].
  - intros [H1 Hb]. unfold Netflix.reviews in H1.
    destruct (List.filter (fun r0 => by_ r0 =? k) df) as [| r l] eqn:E;
      [simpl in H1; lia |].
    assert (Hr : In r (List.filter (fun r0 => by_ r0 =? k) df))
      by (rewrite E; now left).
    apply filter_In in Hr. destruct Hr as [Hr Hk]. apply Z.eqb_eq in Hk.
    destruct (groupby_agg_covers by_ df r Hr) as (s & Hs & Hg & Hc).
    exists s. split; [congruence |]. apply filter_In. split; [exact Hs |].
    simpl. rewrite Hc, Hk. now apply Z.ltb_lt.
Qed.

(** X21.  The titles the Netflix listing scores, with the drop list of
    the data slicing: a title is scored exactly when its movie has at least
    [movie_benchmark] reviews in the table, or none at all.  A movie of
    [df_title] that the table has no rating for is never on
    [drop_movie_list], and gets an estimate like the others. *)
Theorem listing_scores_kept_and_unseen_movies
    (est : Z -> Z -> Q) (df : list Netflix.row) (df_title : list titles.row)
    (bm : Z) (i : nat) (t : titles.row) :
  Netflix.movie_benchmark df = Some bm ->
  nth_error df_title i = Some t ->
  ((exists e, In e (Netflix.estimates est df_title (Netflix.drop_movie_list df))
              /\ Netflix.label e = i) <->
   Netflix.reviews Netflix.Movie_Id df (titles.Movie_Id t) = 0 \/
   bm <= Netflix.reviews Netflix.Movie_Id df (titles.Movie_Id t)).
Proof.
  intros Hbm Hi.
  assert (Hdrop : isin (titles.Movie_Id t) (Netflix.drop_movie_list df) = false <->
                  Netflix.reviews Netflix.Movie_Id df (titles.Movie_Id t) = 0 \/
                  bm <= Netflix.reviews Netflix.Movie_Id df (titles.Movie_Id t)).
  { rewrite <- not_true_iff_false, isin_In.
    unfold Netflix.drop_movie_list. rewrite Hbm.
    unfold Netflix.df_movie_summary. rewrite drop_list_In.
    unfold Netflix.reviews. lia. }
  rewrite <- Hdrop. split.
  - intros (e & He & Hl). apply estimates_In in He.
    destruct He as (t' & Hnth & Hd & _). rewrite Hl, Hi in Hnth.
    now inversion Hnth.
  - intros Hd.
    exists {| Netflix.label := i; Netflix.Year := titles.Year t;
              Netflix.Name := titles.Name t;
              Netflix.Estimate_Score := est 683421 (titles.Movie_Id t) |}.
    split; [| reflexivity]. apply estimates_In. exists t. auto.
Qed.

Lemma listing_scores_kept_and_unseen_movies_witness :
  (exists e, In e (Netflix.estimates Examples.est Examples.df_title
                     (Netflix.drop_movie_list Examples.df))
             /\ Netflix.label e = 2%nat) <->
  Netflix.reviews Netflix.Movie_Id Examples.df 3 = 0 \/
  2 <= Netflix.reviews Netflix.Movie_Id Examples.df 3.
Proof.
  apply (listing_scores_kept_and_unseen_movies Examples.est Examples.df
           Examples.df_title 2 2%nat (titles.mk 3 None "Character"));
    reflexivity.
Defined.

End MoreRecommendFacts.
